(** * BNEP connection setup of the network server (network/server.c)

    A shallow embedding of the admission path of the PAN server: the
    listener [connect_event], the per-connection handler
    [connect_setup_event] with the role check [chk_role], the timer
    [setup_timeout], the reply handler [authorization_callback] and the
    shared teardown [setup_watch_destroy].  The GLib main loop and the
    D-Bus connection are the environment: they deliver events, and every
    call that leaves the process (send, close, bus messages, interface
    set-up) is recorded as an [action]. *)

From Stdlib Require Import ZArith.
From Stdlib.Strings Require Import Byte.
From stdpp Require Import gmap strings list fin_maps.

Local Open Scope Z_scope.

(** ** Constants of the headers *)

(** Modelled from the spec: the constants of <bluetooth/bnep.h>, which is
    not part of the sources at hand.  The spec (section 6) fixes SUCCESS
    at 0 and defers the other numbers to the BNEP specification; the
    values below are the ones that specification assigns. *)
Module Bnep.
Definition BNEP_CONTROL : Z := 0x01.
Definition BNEP_SETUP_CONN_REQ : Z := 0x01.
Definition BNEP_SETUP_CONN_RSP : Z := 0x02.

Definition BNEP_SUCCESS : Z := 0x00.
Definition BNEP_CONN_INVALID_DST : Z := 0x01.
Definition BNEP_CONN_INVALID_SRC : Z := 0x02.
Definition BNEP_CONN_INVALID_SVC : Z := 0x03.
Definition BNEP_CONN_NOT_ALLOWED : Z := 0x04.

Definition BNEP_SVC_PANU : Z := 0x1115.
Definition BNEP_SVC_NAP : Z := 0x1116.
Definition BNEP_SVC_GN : Z := 0x1117.

Definition BNEP_MTU : Z := 1691.

(** [sizeof (struct bnep_setup_conn_req)]: type, ctrl and uuid_size,
    one byte each, followed by the flexible [service] array. *)
Definition sizeof_setup_conn_req : Z := 3.
End Bnep.
Export Bnep.

(** The [GIOCondition] bits, with the values GLib gives them (those of
    the [poll] events). *)
Module Gio.
Definition G_IO_IN : Z := 1.
Definition G_IO_PRI : Z := 2.
Definition G_IO_OUT : Z := 4.
Definition G_IO_ERR : Z := 8.
Definition G_IO_HUP : Z := 16.
Definition G_IO_NVAL : Z := 32.
End Gio.
Export Gio.

Definition MAX_SETUP_ATTEMPTS : Z := 3.
Definition SETUP_TIMEOUT : Z := 1000.

(** ** Role check *)

(** [chk_role]: the switch over [dst_role]; 0 stands for acceptance. *)
Definition chk_role (dst_role src_role : Z) : Z :=
  if (dst_role =? BNEP_SVC_NAP) || (dst_role =? BNEP_SVC_GN) then
    if src_role =? BNEP_SVC_PANU then 0 else BNEP_CONN_INVALID_SRC
  else if dst_role =? BNEP_SVC_PANU then
    if (src_role =? BNEP_SVC_PANU) || (src_role =? BNEP_SVC_GN)
       || (src_role =? BNEP_SVC_NAP)
    then 0
    else BNEP_CONN_INVALID_SRC
  else BNEP_CONN_INVALID_DST.

(** ** Data model *)

(** [struct setup_session].  The handlers pass sessions around by pointer
    and compare those pointers ([g_slist_find]); [ptr] is the address of
    the allocation.  Two live sessions never share a block, but a block
    that [setup_free] released can be handed out again, also while a
    pending call still carries its address. *)
Record setup_session := SetupSession {
  ptr : nat;
  address : string;
  dst_role : Z;
  src_role : Z;
  nsk : Z;
  attempts : Z;
  watch : Z;
  timeout : Z
}.

(** [struct network_server], restricted to the fields the admission path
    reads or writes ([ns_id] is the field [id]). *)
Record network_server := NetworkServer {
  enable : bool;
  record_id : Z;
  ns_id : Z;
  clients : list string
}.

(** The globals of the file together with the two pieces of library state
    the handlers depend on.  [servers] is the user data registered on the
    bus under NETWORK_PATH/<bnep_name role>, keyed by the role;
    [pending_calls] is the list of D-Bus calls sent with a reply handler
    and not yet answered, each with the session pointer given as user
    data; [listening] tells whether the watch on the listening socket is
    still installed; [next_ptr] is above every block the allocator has
    handed out and [next_source] is the next source id of the main
    loop. *)
Record state := State {
  setup_sessions : list setup_session;
  servers : gmap Z network_server;
  pending_calls : list nat;
  listening : bool;
  next_ptr : nat;
  next_source : Z
}.

(** What the calls into libdbus and into the helpers declared in
    common.h and bridge.h return during one handler run:
    [dbus_message_new_method_call] gave a message,
    [dbus_connection_send_with_reply] took it, [bnep_connadd] and
    [bridge_add_interface] did not fail, [bridge_get_name] gave a name,
    [bnep_if_up] did not fail. *)
Record env := Env {
  new_method_call : bool;
  send_with_reply : bool;
  connadd : bool;
  bridge_name : option string;
  bridge_add : bool;
  if_up : bool
}.

(** The three ways a RequestAuthorization call ends: a method return, an
    error other than DBUS_ERROR_NO_REPLY, and DBUS_ERROR_NO_REPLY. *)
Inductive auth_reply := Approved | Denied | NoReply.

(** Calls that leave the process, in the order they are made. *)
Inductive action :=
| Send (sk : Z) (pkt : list Z)
| Close (sk : Z)
| CloseListener
| RequestAuthorization (data : nat) (addr : string) (role : Z)
| CancelAuthorizationRequest (addr : string) (role : Z)
| ConnAdd (sk : Z) (role : Z)
| BridgeAddInterface (id : Z)
| IfUp (id : Z)
| SetupFree (p : nat).

Definition is_send (a : action) : bool :=
  match a with Send _ _ => true | _ => false end.

Definition is_cancel (a : action) : bool :=
  match a with CancelAuthorizationRequest _ _ => true | _ => false end.

(** Field updates through the session pointer. *)
Definition set_dst_role (v : Z) (s : setup_session) : setup_session :=
  SetupSession (ptr s) (address s) v (src_role s) (nsk s) (attempts s)
    (watch s) (timeout s).

Definition set_src_role (v : Z) (s : setup_session) : setup_session :=
  SetupSession (ptr s) (address s) (dst_role s) v (nsk s) (attempts s)
    (watch s) (timeout s).

Definition set_attempts (v : Z) (s : setup_session) : setup_session :=
  SetupSession (ptr s) (address s) (dst_role s) (src_role s) (nsk s) v
    (watch s) (timeout s).

Definition set_timeout (v : Z) (s : setup_session) : setup_session :=
  SetupSession (ptr s) (address s) (dst_role s) (src_role s) (nsk s)
    (attempts s) (watch s) v.

Definition set_clients (v : list string) (ns : network_server)
  : network_server :=
  NetworkServer (enable ns) (record_id ns) (ns_id ns) v.

(** ** The session list *)

(** [g_slist_find (setup_sessions, s)]: first node holding the pointer. *)
Definition g_slist_find (l : list setup_session) (p : nat)
  : option setup_session :=
  find (fun x => Nat.eqb (ptr x) p) l.

(** [g_slist_remove (setup_sessions, s)]: drops the first node holding the
    pointer. *)
Fixpoint g_slist_remove (l : list setup_session) (p : nat)
  : list setup_session :=
  match l with
  | [] => []
  | x :: l' => if Nat.eqb (ptr x) p then l' else x :: g_slist_remove l' p
  end.

(** [setup_cmp]: [strcmp] of the session's address with [addr]. *)
Definition setup_cmp (s : setup_session) (addr : string) : comparison :=
  String.compare (address s) addr.

(** [g_slist_find_custom (setup_sessions, peer, setup_cmp)]: first node on
    which the comparison answers 0. *)
Definition g_slist_find_custom (l : list setup_session) (addr : string)
  : option setup_session :=
  find (fun x => match setup_cmp x addr with Eq => true | _ => false end) l.

(** A write through the pointer [ptr s'] is seen by the node of the list
    that holds this pointer. *)
Definition store (s' : setup_session) (l : list setup_session)
  : list setup_session :=
  (fun x => if Nat.eqb (ptr x) (ptr s') then s' else x) <$> l.

(** ** Protocol codec *)

(** [recv (sk, pkt, sizeof (pkt) - 1, 0)] on the zeroed buffer: the count
    returned and the bytes written.  [None] is a failed call (-1); a
    datagram longer than the room given is cut. *)
Definition recv (dgram : option (list byte)) : Z * list byte :=
  match dgram with
  | None => (-1, [])
  | Some d =>
      let b := firstn (Z.to_nat (BNEP_MTU - 1)) d in
      (Z.of_nat (length b), b)
  end.

(** Byte [i] of the buffer, which [memset] cleared before the read. *)
Definition byte_at (pkt : list byte) (i : Z) : Z :=
  Z.of_N (Byte.to_N (nth (Z.to_nat i) pkt x00)).

(** [ntohs] of the unaligned 16-bit read at offset [i]: high byte
    first. *)
Definition get_be16 (pkt : list byte) (i : Z) : Z :=
  Z.lor (Z.shiftl (byte_at pkt i) 8) (byte_at pkt (i + 1)).

(** Conversion of the [ssize_t] count to [size_t] for the comparison with
    a [sizeof] expression. *)
Definition to_size_t (r : Z) : Z := r mod 2 ^ 64.

(** [send_bnep_ctrl_rsp]: type, ctrl and the response in network order. *)
Definition send_bnep_ctrl_rsp (sk response : Z) : list action :=
  [Send sk [BNEP_CONTROL; BNEP_SETUP_CONN_RSP;
            Z.land (Z.shiftr response 8) 255; Z.land response 255]].

(** ** Authorization client *)

Definition ENOMEM : Z := 12.
Definition EACCES : Z := 13.

Definition cancel_authorization (s : setup_session) (e : env)
  : list action :=
  if new_method_call e
  then [CancelAuthorizationRequest (address s) (dst_role s)]
  else [].

Definition authorize_connection (s : setup_session) (e : env)
  : Z * list action :=
  if negb (new_method_call e) then (- ENOMEM, [])
  else if negb (send_with_reply e) then (- EACCES, [])
  else (0, [RequestAuthorization (ptr s) (address s) (dst_role s)]).

(** ** Setup session *)

(** A C integer used as a condition. *)
Definition truthy (x : Z) : bool := negb (x =? 0).

(** [ns == NULL || ns->enable == FALSE], negated. *)
Definition server_usable (o : option network_server) : bool :=
  match o with
  | Some ns => enable ns
  | None => false
  end.

(** [connect_setup_event]: the watch callback of a session socket.  The
    result is the [gboolean] returned (FALSE removes the watch), the
    session as the handler leaves it, and the calls made.  [sk], the
    descriptor of the channel, is the session's [nsk]. *)
Definition connect_setup_event (srv : gmap Z network_server)
    (s : setup_session) (cond : Z) (dgram : option (list byte)) (e : env)
  : bool * setup_session * list action :=
  if truthy (Z.land cond G_IO_NVAL) then (false, s, [])
  else if truthy (Z.land cond (Z.lor G_IO_ERR G_IO_HUP)) then
    (false, s, if truthy (attempts s) then cancel_authorization s e else [])
  else
    let sk := nsk s in
    let '(r, pkt) := recv dgram in
    let uuid_size := byte_at pkt 2 in
    if negb (uuid_size =? 2)
       || negb (to_size_t r =? sizeof_setup_conn_req + uuid_size * 2)
    then (false, s, send_bnep_ctrl_rsp sk BNEP_CONN_INVALID_SVC)
    else if negb (byte_at pkt 0 =? BNEP_CONTROL)
            || negb (byte_at pkt 1 =? BNEP_SETUP_CONN_REQ)
    then (false, s, [])
    else
      let s := set_dst_role (get_be16 pkt sizeof_setup_conn_req) s in
      let s :=
        set_src_role (get_be16 pkt (sizeof_setup_conn_req + uuid_size)) s in
      let response := chk_role (src_role s) (dst_role s) in
      if truthy response then (false, s, send_bnep_ctrl_rsp sk response)
      else if negb (server_usable (srv !! dst_role s))
      then (false, s, send_bnep_ctrl_rsp sk BNEP_CONN_NOT_ALLOWED)
      else
        let s := set_timeout 0 s in
        let s := set_attempts (attempts s + 1) s in
        if attempts s >? MAX_SETUP_ATTEMPTS
        then (false, s, send_bnep_ctrl_rsp sk BNEP_CONN_NOT_ALLOWED)
        else
          let '(rc, out) := authorize_connection s e in
          if rc <? 0
          then (false, s, out ++ send_bnep_ctrl_rsp sk BNEP_CONN_NOT_ALLOWED)
          else (true, s, out).

Definition set_sessions (l : list setup_session) (st : state) : state :=
  State l (servers st) (pending_calls st) (listening st) (next_ptr st)
    (next_source st).

Definition set_servers (m : gmap Z network_server) (st : state) : state :=
  State (setup_sessions st) m (pending_calls st) (listening st) (next_ptr st)
    (next_source st).

Definition set_pending (l : list nat) (st : state) : state :=
  State (setup_sessions st) (servers st) l (listening st) (next_ptr st)
    (next_source st).

Definition set_listening (b : bool) (st : state) : state :=
  State (setup_sessions st) (servers st) (pending_calls st) b (next_ptr st)
    (next_source st).

(** The destroy notification of the session watch when it is run from
    inside [g_source_remove (s->watch)]: [setup_watch_destroy] entered a
    second time, after the first run took its session off the list.  The
    sources of a session it still finds are the ones the first run is
    removing, so it removes none. *)
Definition watch_removed (st : state) (data : nat) : state * list action :=
  match g_slist_find (setup_sessions st) data with
  | None => (st, [])
  | Some s =>
      (set_sessions (g_slist_remove (setup_sessions st) (ptr s)) st,
       [SetupFree (ptr s)])
  end.

(** [setup_watch_destroy]: the one teardown routine.  It is the destroy
    notification of the session watch and of every pending call, and the
    body of the timer.  [installed] tells whether the session watch is
    still attached to the main loop when the routine runs: it is when the
    timer or the release of a pending call runs it, and then
    [g_source_remove (s->watch)] runs the destroy notification of the
    watch; it is not when the routine is that notification itself.
    Removing the timer runs no notification. *)
Definition setup_watch_destroy (installed : bool) (st : state) (data : nat)
  : state * list action :=
  match g_slist_find (setup_sessions st) data with
  | None => (st, [])
  | Some s =>
      let st1 :=
        set_sessions (g_slist_remove (setup_sessions st) (ptr s)) st in
      let '(st2, out2) :=
        if installed && truthy (watch s) then watch_removed st1 (ptr s)
        else (st1, []) in
      (st2, out2 ++ [SetupFree (ptr s)])
  end.

(** [setup_timeout]: the timer fires while the session watch is
    installed. *)
Definition setup_timeout (st : state) (data : nat) : state * list action :=
  setup_watch_destroy true st data.

(** ** Admission result handler *)

(** [authorization_callback].  The value [if_up e] that [bnep_if_up]
    returns is not looked at. *)
Definition authorization_callback (st : state) (data : nat)
    (reply : auth_reply) (e : env) : state * list action :=
  match g_slist_find (setup_sessions st) data with
  | None => (st, [])
  | Some s =>
      let failed (pre : list action) :=
        (st, pre ++ send_bnep_ctrl_rsp (nsk s) BNEP_CONN_NOT_ALLOWED) in
      match servers st !! dst_role s with
      | None => failed []
      | Some ns =>
          let success (pre : list action) :=
            (set_servers
               (<[dst_role s := set_clients (clients ns ++ [address s]) ns]>
                  (servers st)) st,
             pre ++ send_bnep_ctrl_rsp (nsk s) BNEP_SUCCESS) in
          if negb (enable ns) then failed []
          else
            match reply with
            | NoReply => failed (cancel_authorization s e)
            | Denied => failed []
            | Approved =>
                let add := ConnAdd (nsk s) (dst_role s) in
                if negb (connadd e) then failed [add]
                else
                  match bridge_name e with
                  | Some _ =>
                      if negb (bridge_add e)
                      then failed [add; BridgeAddInterface (ns_id ns)]
                      else success [add; BridgeAddInterface (ns_id ns);
                                    IfUp 0]
                  | None => success [add; IfUp (ns_id ns)]
                  end
            end
      end
  end.

(** ** Listener *)

(** [g_new0 (struct setup_session, 1)].  Which block the allocator
    returns is its own choice among the blocks not in use, the blocks
    released before included; [block] names the choice.  The block of a
    live session cannot be the answer of the allocator; for such a name
    the model takes [next_ptr], a block never handed out. *)
Definition g_new0 (st : state) (block : nat) : nat :=
  match g_slist_find (setup_sessions st) block with
  | None => block
  | Some _ => next_ptr st
  end.

(** [connect_event]: the watch callback of the listening socket; [acc] is
    what [accept] gave, the new descriptor and the peer address printed
    by [ba2str], or [None] when it failed; [block] is what [g_new0]
    gives when it is called. *)
Definition connect_event (st : state) (cond : Z) (acc : option (Z * string))
    (block : nat) : bool * state * list action :=
  if truthy (Z.land cond G_IO_NVAL) then (false, st, [])
  else if truthy (Z.land cond (Z.lor G_IO_ERR G_IO_HUP))
  then (false, st, [CloseListener])
  else
    match acc with
    | None => (true, st, [])
    | Some (nsk, peer) =>
        match g_slist_find_custom (setup_sessions st) peer with
        | Some _ => (true, st, [Close nsk])
        | None =>
            let s := SetupSession (g_new0 st block) peer 0 0 nsk 0
                       (next_source st) (next_source st + 1) in
            (true,
             State (setup_sessions st ++ [s]) (servers st) (pending_calls st)
               (listening st) (Nat.max (next_ptr st) (S (ptr s)))
               (next_source st + 2),
             [])
        end
    end.

(** ** Server instances *)

(** [server_register]: a zeroed server with the given class under a path
    not yet in use. *)
Definition server_register (role id : Z) (m : gmap Z network_server)
  : gmap Z network_server :=
  match m !! role with
  | Some _ => m
  | None => <[role := NetworkServer false 0 id []]> m
  end.

(** [server_register_from_file]: as above, for a stored server that has a
    name; [enabled] holds the handle [register_server_record] returned
    when the file says the server is enabled. *)
Definition server_register_from_file (role id : Z) (enabled : option Z)
    (m : gmap Z network_server) : gmap Z network_server :=
  match m !! role with
  | Some _ => m
  | None =>
      <[role := match enabled with
                | Some rec => NetworkServer true rec id []
                | None => NetworkServer false 0 id []
                end]> m
  end.

(** [enable]: [adapter] tells whether a local adapter was found, [rec] is
    the handle [register_server_record] returned. *)
Definition server_enable (adapter : bool) (rec : Z) (ns : network_server)
  : network_server :=
  if enable ns then ns
  else if negb adapter then ns
  else if rec =? 0 then NetworkServer false rec (ns_id ns) (clients ns)
  else NetworkServer true rec (ns_id ns) (clients ns).

(** [disable]. *)
Definition server_disable (ns : network_server) : network_server :=
  if enable ns then NetworkServer false 0 (ns_id ns) (clients ns) else ns.

(** ** Event loop *)

Inductive event :=
| Incoming (cond : Z) (acc : option (Z * string)) (block : nat)
| SetupIO (data : nat) (cond : Z) (dgram : option (list byte)) (e : env)
| SetupTimer (data : nat)
| AuthReply (n : nat) (reply : auth_reply) (e : env)
| ServerRegister (role id : Z)
| ServerRegisterFromFile (role id : Z) (enabled : option Z)
| ServerUnregister (role : Z)
| ServerEnable (role : Z) (adapter : bool) (rec : Z)
| ServerDisable (role : Z).

(** The user data of the calls a handler run has put on the bus with a
    reply handler. *)
Definition new_calls (out : list action) : list nat :=
  flat_map (fun a => match a with
                     | RequestAuthorization data _ _ => [data]
                     | _ => []
                     end) out.

(** One dispatch of the main loop.
    - A new connection comes with the block [g_new0] returns for it.
    - A watch fires only while it is installed; a callback that returns
      FALSE has its watch removed by the main loop, which then runs its
      destroy notification [setup_watch_destroy].
    - The timer fires only while [timeout] holds its source; its
      callback is [setup_timeout].
    - A reply completes the [n]-th pending call: [authorization_callback]
      runs on the user data, then the call is released, which runs
      [setup_watch_destroy] on the same user data.
    [server_exit] ends the service and is not an event of the loop. *)
Definition step (st : state) (ev : event) : state * list action :=
  match ev with
  | Incoming cond acc block =>
      if listening st then
        let '(keep, st1, out) := connect_event st cond acc block in
        (set_listening keep st1, out)
      else (st, [])
  | SetupIO data cond dgram e =>
      match g_slist_find (setup_sessions st) data with
      | None => (st, [])
      | Some s =>
          let '(keep, s1, out) :=
            connect_setup_event (servers st) s cond dgram e in
          let st1 :=
            set_pending (pending_calls st ++ new_calls out)
              (set_sessions (store s1 (setup_sessions st)) st) in
          if keep then (st1, out)
          else
            let '(st2, out2) := setup_watch_destroy false st1 data in
            (st2, out ++ out2)
      end
  | SetupTimer data =>
      match g_slist_find (setup_sessions st) data with
      | None => (st, [])
      | Some s =>
          if truthy (timeout s) then setup_timeout st data else (st, [])
      end
  | AuthReply n reply e =>
      match pending_calls st !! n with
      | None => (st, [])
      | Some data =>
          let st0 := set_pending (delete n (pending_calls st)) st in
          let '(st1, out1) := authorization_callback st0 data reply e in
          let '(st2, out2) := setup_watch_destroy true st1 data in
          (st2, out1 ++ out2)
      end
  | ServerRegister role id =>
      (set_servers (server_register role id (servers st)) st, [])
  | ServerRegisterFromFile role id enabled =>
      (set_servers (server_register_from_file role id enabled (servers st))
         st, [])
  | ServerUnregister role =>
      (set_servers (delete role (servers st)) st, [])
  | ServerEnable role adapter rec =>
      (set_servers (alter (server_enable adapter rec) role (servers st)) st,
       [])
  | ServerDisable role =>
      (set_servers (alter server_disable role (servers st)) st, [])
  end.

(** State and trace after a list of events. *)
Fixpoint run (st : state) (evs : list event) : state * list action :=
  match evs with
  | [] => (st, [])
  | ev :: evs' =>
      let '(st1, out1) := step st ev in
      let '(st2, out2) := run st1 evs' in
      (st2, out1 ++ out2)
  end.

(** The state [server_init] leaves: no session, no server registered yet,
    the listening watch installed. *)
Definition initial_state : state := State [] ∅ [] true 1 1.

Inductive reachable : state → Prop :=
| reachable_init : reachable initial_state
| reachable_step st ev : reachable st → reachable (step st ev).1.

(** Unanswered RequestAuthorization calls that carry the pointer [p]. *)
Definition outstanding (st : state) (p : nat) : nat :=
  length (filter (fun q => q = p) (pending_calls st)).



(** ** Conditions on the input of the session handler *)

(** The condition lets the handler get to [recv]: none of G_IO_NVAL,
    G_IO_ERR and G_IO_HUP is raised. *)
Definition readable (cond : Z) : bool :=
  negb (truthy (Z.land cond G_IO_NVAL))
  && negb (truthy (Z.land cond (Z.lor G_IO_ERR G_IO_HUP))).

(** The condition takes the hangup branch: G_IO_NVAL is clear and one of
    G_IO_ERR and G_IO_HUP is raised. *)
Definition hangup (cond : Z) : bool :=
  negb (truthy (Z.land cond G_IO_NVAL))
  && truthy (Z.land cond (Z.lor G_IO_ERR G_IO_HUP)).

(** The datagram passes the size test and the packet type test. *)
Definition setup_request_ok (dgram : option (list byte)) : bool :=
  let '(r, pkt) := recv dgram in
  (byte_at pkt 2 =? 2)
  && (to_size_t r =? sizeof_setup_conn_req + byte_at pkt 2 * 2)
  && (byte_at pkt 0 =? BNEP_CONTROL)
  && (byte_at pkt 1 =? BNEP_SETUP_CONN_REQ).

(** The roles the handler reads from a datagram that passed the tests. *)
Definition request_dst (dgram : option (list byte)) : Z :=
  get_be16 (recv dgram).2 sizeof_setup_conn_req.

Definition request_src (dgram : option (list byte)) : Z :=
  get_be16 (recv dgram).2 (sizeof_setup_conn_req + 2).

(** A valid setup request: it passes the size and type tests, the role
    check lets it through and the server of the destination role is
    registered and enabled. *)
Definition valid_setup (srv : gmap Z network_server)
    (dgram : option (list byte)) : bool :=
  setup_request_ok dgram
  && (chk_role (request_src dgram) (request_dst dgram) =? 0)
  && server_usable (srv !! request_dst dgram).

(** The session after a request that passed the tests was read. *)
Definition with_roles (dgram : option (list byte)) (s : setup_session)
  : setup_session :=
  set_src_role (request_src dgram) (set_dst_role (request_dst dgram) s).

(** A readable event on session [data] that carries a valid setup
    request. *)
Definition valid_request (srv : gmap Z network_server) (data : nat)
    (ev : event) : bool :=
  match ev with
  | SetupIO d cond dgram _ =>
      Nat.eqb d data && readable cond && valid_setup srv dgram
  | _ => false
  end.

(** The bus takes the RequestAuthorization call of the event. *)
Definition bus_accepts (ev : event) : bool :=
  match ev with
  | SetupIO _ _ _ e => new_method_call e && send_with_reply e
  | _ => false
  end.

(** The destination role of the request an event carries. *)
Definition event_dst (ev : event) : Z :=
  match ev with
  | SetupIO _ _ dgram _ => request_dst dgram
  | _ => 0
  end.

(** ** Scenarios *)

Definition peer0 : string := "00:11:22:33:44:55".

Definition env_ok : env := Env true true true None true true.

(** Every call succeeds except [bnep_if_up]. *)
Definition env_if_up_fails : env := Env true true true None true false.

(** dst = NAP, src = PANU, 16-bit UUIDs. *)
Definition req_nap_panu : list byte := [x01; x01; x02; x11; x16; x11; x15].

(** dst = NAP, src = 0x0000. *)
Definition req_nap_zero : list byte := [x01; x01; x02; x11; x16; x00; x00].

(** dst = 0x0000, src = PANU. *)
Definition req_zero_panu : list byte := [x01; x01; x02; x00; x00; x11; x15].

(** dst = PANU, src = NAP, 32-bit UUIDs (uuid_size = 4). *)
Definition req_uuid32 : list byte :=
  [x01; x01; x04; x00; x00; x11; x15; x00; x00; x11; x16].

(** The NAP server is registered and enabled, then [peer0] connects. *)
Definition boot : list event :=
  [ServerRegister BNEP_SVC_NAP BNEP_SVC_NAP;
   ServerEnable BNEP_SVC_NAP true 0x10000;
   Incoming G_IO_IN (Some (5, peer0)) 1].

Definition setup_nap : event := SetupIO 1 G_IO_IN (Some req_nap_panu) env_ok.

Definition st_connected : state := (run initial_state boot).1.

Definition st_authorizing : state := (run st_connected [setup_nap]).1.

(** The NAP server is disabled while the request of [peer0] waits for
    its reply. *)
Definition st_disabled : state :=
  (run st_authorizing [ServerDisable BNEP_SVC_NAP]).1.

Definition session0 : setup_session := SetupSession 1 peer0 0 0 5 0 1 2.

Definition session1 : setup_session :=
  SetupSession 1 peer0 BNEP_SVC_NAP BNEP_SVC_PANU 5 1 1 0.

Definition nap_server : network_server :=
  NetworkServer true 0x10000 BNEP_SVC_NAP [].

(** What every reachable state satisfies: live sessions are told apart
    by their pointer and by their peer address, their pointers are below
    the mark of the blocks never handed out, the attempts counter stays
    within the bound and each request a live session has counted is a
    call that still waits for its reply, and a session that has counted
    no attempt still has its timer.  The pending calls that carry the
    pointer of a session can be more than the session has counted: the
    calls of an earlier session on the same block stay pending. *)
Record inv (st : state) : Prop := Inv {
  inv_ptr_nodup : NoDup (ptr <$> setup_sessions st);
  inv_addr_nodup : NoDup (address <$> setup_sessions st);
  inv_ptr_fresh :
    ∀ s, s ∈ setup_sessions st → (ptr s < next_ptr st)%nat;
  inv_attempts :
    ∀ s, s ∈ setup_sessions st →
      0 ≤ attempts s ≤ MAX_SETUP_ATTEMPTS
      ∧ attempts s ≤ Z.of_nat (outstanding st (ptr s));
  inv_source : 0 < next_source st;
  inv_timer :
    ∀ s, s ∈ setup_sessions st → attempts s = 0 → timeout s ≠ 0
}.

(** The NAP server is registered and enabled; nobody has connected. *)
Definition st_enabled : state :=
  (run initial_state
     [ServerRegister BNEP_SVC_NAP BNEP_SVC_NAP;
      ServerEnable BNEP_SVC_NAP true 0x10000]).1.

Definition peer1 : string := "00:11:22:33:44:66".

(** A setup response (ctrl = 0x02) of the size of a setup request. *)
Definition req_foreign : list byte := [x01; x02; x02; x00; x00; x00; x00].

(** dst = GN, src = PANU. *)
Definition req_gn_panu : list byte := [x01; x01; x02; x11; x17; x11; x15].

(** [dbus_connection_send_with_reply] fails. *)
Definition env_no_bus : env := Env true false true None true true.

(** [peer0] hangs up while its request waits for the reply. *)
Definition st_hungup : state :=
  (run st_authorizing [SetupIO 1 G_IO_HUP None env_ok]).1.

(** [peer1] connects while the request of [peer0] waits for the reply. *)
Definition st_two : state :=
  (run st_authorizing [Incoming G_IO_IN (Some (6, peer1)) 2]).1.

Definition session2 : setup_session := SetupSession 2 peer1 0 0 6 0 3 4.

(** [dbus_message_new_method_call] gives no message. *)
Definition env_no_msg : env := Env false true true None true true.

(** After [peer0] hung up, [peer1] connects and its session is given the
    block the session of [peer0] had, which the unanswered call of
    [peer0] still carries. *)
Definition st_reused : state :=
  (run st_authorizing
     [SetupIO 1 G_IO_HUP None env_ok; Incoming G_IO_IN (Some (6, peer1)) 1]).1.

Definition session3 : setup_session := SetupSession 1 peer1 0 0 6 0 3 4.

(** What holds of the sessions that wait for a reply, in every reachable
    state: a session that has counted a request has lost its timer, and
    the roles it holds went through the role check. *)
Record inv_wait (st : state) : Prop := InvWait {
  wait_timer :
    ∀ s, s ∈ setup_sessions st → attempts s ≠ 0 → timeout s = 0;
  wait_roles :
    ∀ s, s ∈ setup_sessions st → attempts s ≠ 0 →
      chk_role (src_role s) (dst_role s) = 0
}.

(** The session pointer an event carries: the user data of the watch, of
    the timer or of the completed call.  For a completed call this is
    the block of the session that issued it, which by now can be the
    block of another session. *)
Definition event_session (st : state) (ev : event) : option nat :=
  match ev with
  | SetupIO data _ _ _ => Some data
  | SetupTimer data => Some data
  | AuthReply n _ _ => pending_calls st !! n
  | _ => None
  end.

(** ** Server instances in full *)

(** Modelled from the spec: the service class, profile and protocol
    numbers of <bluetooth/sdp.h> and the PSM of <bluetooth/bnep.h>, which
    are not among the sources; the values are the assigned numbers. *)
Module Sdp.
Definition NAP_SVCLASS_ID : Z := 0x1116.
Definition GN_SVCLASS_ID : Z := 0x1117.
Definition PANU_SVCLASS_ID : Z := 0x1115.
Definition NAP_PROFILE_ID : Z := 0x1116.
Definition GN_PROFILE_ID : Z := 0x1117.
Definition PANU_PROFILE_ID : Z := 0x1115.
Definition PUBLIC_BROWSE_GROUP : Z := 0x1002.
Definition L2CAP_UUID : Z := 0x0100.
Definition BNEP_UUID : Z := 0x000f.
Definition BNEP_PSM : Z := 0x000f.
Definition SDP_PRIMARY_LANG_BASE : Z := 0x0100.
End Sdp.

Module Admin.
Export Sdp.

(** [struct network_server] with all its fields.  [src] is the local
    address as [ba2str] prints it; a [char *] field is [None] when it is
    NULL. *)
Record network_server := Server {
  src : string;
  iface : option string;
  name : option string;
  range : option string;
  path : string;
  enable : bool;
  record_id : Z;
  id : Z;
  clients : list string
}.

Definition BDADDR_ANY : string := "00:00:00:00:00:00".

Definition set_src (v : string) (ns : network_server) : network_server :=
  Server v (iface ns) (name ns) (range ns) (path ns) (enable ns)
    (record_id ns) (id ns) (clients ns).

Definition set_iface (v : option string) (ns : network_server)
  : network_server :=
  Server (src ns) v (name ns) (range ns) (path ns) (enable ns)
    (record_id ns) (id ns) (clients ns).

Definition set_name_field (v : option string) (ns : network_server)
  : network_server :=
  Server (src ns) (iface ns) v (range ns) (path ns) (enable ns)
    (record_id ns) (id ns) (clients ns).

Definition set_enable (v : bool) (ns : network_server) : network_server :=
  Server (src ns) (iface ns) (name ns) (range ns) (path ns) v
    (record_id ns) (id ns) (clients ns).

Definition set_record_id (v : Z) (ns : network_server) : network_server :=
  Server (src ns) (iface ns) (name ns) (range ns) (path ns) (enable ns)
    v (id ns) (clients ns).

(** *** Storage *)

(** Modelled from the spec: the key-value text files of textfile.h
    ([create_name], [create_file], [textfile_put], [textfile_get]), which
    are not among the sources.  The file STORAGEDIR/<address>/<name> is
    identified by the pair of the address and the name; a file is a map
    from keys to values, and reading a missing file or key gives NULL. *)
Definition create_name (addr name : string) : string * string :=
  (addr, name).

Definition create_file (filename : string * string)
    (fs : gmap (string * string) (gmap string string))
  : gmap (string * string) (gmap string string) :=
  match fs !! filename with
  | Some _ => fs
  | None => <[filename := ∅]> fs
  end.

Definition textfile_put (filename : string * string) (key value : string)
    (fs : gmap (string * string) (gmap string string))
  : gmap (string * string) (gmap string string) :=
  <[filename := <[key := value]> (default ∅ (fs !! filename))]> fs.

Definition textfile_get (filename : string * string) (key : string)
    (fs : gmap (string * string) (gmap string string)) : option string :=
  match fs !! filename with
  | Some f => f !! key
  | None => None
  end.

(** The name [store_property] gives the file of a class; for a class
    that is none of the three the buffer is never written. *)
Definition property_file (id : Z) : option string :=
  if id =? BNEP_SVC_NAP then Some "nap"%string
  else if id =? BNEP_SVC_GN then Some "gn"%string
  else if id =? BNEP_SVC_PANU then Some "panu"%string
  else None.

(** [store_property].  With a class that is none of the three the call
    reads a buffer that was never written; the model then leaves the
    store alone, and every statement about stored properties below
    assumes a class that has a file. *)
Definition store_property (src : string) (id : Z) (key value : string)
    (fs : gmap (string * string) (gmap string string))
  : gmap (string * string) (gmap string string) :=
  match property_file id with
  | Some n => textfile_put (create_name src n) key value fs
  | None => fs
  end.

(** The name [server_store] gives the file of a class: every class that
    is neither NAP nor GN goes to "panu". *)
Definition store_file (id : Z) : string :=
  if id =? BNEP_SVC_NAP then "nap"
  else if id =? BNEP_SVC_GN then "gn"
  else "panu".

Definition put_if_set (filename : string * string) (key : string)
    (value : option string)
    (fs : gmap (string * string) (gmap string string))
  : gmap (string * string) (gmap string string) :=
  match value with
  | Some v => textfile_put filename key v fs
  | None => fs
  end.

(** The body of [server_store] once the server was found under its
    path.  The name is written unconditionally in the source; a server
    without a name is outside the model's statements. *)
Definition store_server (ns : network_server)
    (fs : gmap (string * string) (gmap string string))
  : gmap (string * string) (gmap string string) :=
  let filename := create_name (src ns) (store_file (id ns)) in
  let fs := create_file filename fs in
  let fs := put_if_set filename "name" (name ns) fs in
  let fs := put_if_set filename "routing" (iface ns) fs in
  let fs := put_if_set filename "range" (range ns) fs in
  textfile_put filename "enabled" (if enable ns then "1" else "0") fs.

Definition ENOENT : Z := 2.
Definition EINVAL : Z := 22.

(** [server_store]. *)
Definition server_store (reg : gmap string network_server) (path : string)
    (fs : gmap (string * string) (gmap string string))
  : Z * gmap (string * string) (gmap string string) :=
  match reg !! path with
  | None => (- ENOENT, fs)
  | Some ns => (0, store_server ns fs)
  end.

(** *** Service record *)

#[local] Unset Elimination Schemes.
Inductive sdp_data :=
| SdpUuid16 (u : Z)
| SdpUint16 (v : Z)
| SdpUint32 (v : Z)
| SdpSeq16 (l : list sdp_data).
#[local] Set Elimination Schemes.

Record sdp_record := SdpRecord {
  service_classes : list Z;
  profile_descs : list (Z * Z);
  info_name : option string;
  info_desc : string;
  net_access : option (Z * Z);
  browse_groups : list Z;
  access_protos : list (list (list sdp_data));
  lang_attr : list (Z * Z * Z);
  security_desc : Z
}.

(** The "Supported protocols" loop: the sequence grows by one element per
    protocol type. *)
Definition supported_protocols (ptype : list Z) : option sdp_data :=
  option_map SdpSeq16
    (fold_left
       (fun head p =>
          match head with
          | Some seq => Some (seq ++ [SdpUint16 p])
          | None => Some [SdpUint16 p]
          end) ptype None).

(** [server_record_new]; [alloc] tells whether [sdp_record_alloc] gave a
    record, [security] is the global flag. *)
Definition server_record_new (alloc security : bool) (name : option string)
    (id : Z) : option sdp_record :=
  if negb alloc then None
  else
    let version := 0x0100 in
    let desc := "BlueZ PAN service"%string in
    let build svclass profile net :=
      let proto0 := [SdpUuid16 L2CAP_UUID; SdpUint16 BNEP_PSM] in
      let proto1 :=
        [SdpUuid16 BNEP_UUID; SdpUint16 version]
        ++ match supported_protocols [0x0800; 0x0806] with
           | Some pseq => [pseq]
           | None => []
           end in
      Some (SdpRecord [svclass] [(profile, 0x0100)] name desc net
              [PUBLIC_BROWSE_GROUP] [[proto0; proto1]]
              [(Z.lor (Z.shiftl 0x65 8) 0x6e, 106, SDP_PRIMARY_LANG_BASE)]
              (if security then 0x0001 else 0x0000)) in
    if id =? BNEP_SVC_NAP
    then build NAP_SVCLASS_ID NAP_PROFILE_ID (Some (0xfffe, 0))
    else if id =? BNEP_SVC_GN then build GN_SVCLASS_ID GN_PROFILE_ID None
    else if id =? BNEP_SVC_PANU
    then build PANU_SVCLASS_ID PANU_PROFILE_ID None
    else None.

(** *** Method handlers *)

(** What the library calls of a handler run return:
    [dbus_message_new_method_return] gave a message, the string argument
    [dbus_message_get_args] read, the adapter address [hci_get_route] and
    [hci_devba] found, [sdp_record_alloc] gave a record, the handle of
    the record after [add_record_to_server], and whether
    [dbus_connection_create_object_path] and
    [dbus_connection_register_interface] succeeded. *)
Record env := Env {
  reply : bool;
  args : option string;
  route : option string;
  record_alloc : bool;
  add_record : option Z;
  object_path : bool;
  interface : bool
}.

Inductive error := AlreadyExists | Failed | InvalidArguments.

(** The [DBusHandlerResult] together with what was sent: a method return
    with its argument, an error, or nothing. *)
Inductive result :=
| Return
| ReturnBool (b : bool)
| ReturnString (s : string)
| Error (e : error)
| NeedMemory
| NotYetHandled.

Inductive action :=
| AddRecord (src : string) (r : sdp_record) (handle : Z)
| RemoveRecord (handle : Z)
| KillConnection (addr : string)
| Signal (path name : string).

(** [register_server_record]. *)
Definition register_server_record (security : bool) (ns : network_server)
    (e : env) : Z * list action :=
  match server_record_new (record_alloc e) security (name ns) (id ns) with
  | None => (0, [])
  | Some record =>
      match add_record e with
      | None => (0, [])
      | Some handle => (handle, [AddRecord (src ns) record handle])
      end
  end.

(** The handler [enable] (the field has the name).  [server_store] is
    called on the path of the server itself and so finds this server. *)
Definition enable_method (security : bool) (ns : network_server)
    (fs : gmap (string * string) (gmap string string)) (e : env)
  : network_server * gmap (string * string) (gmap string string)
    * result * list action :=
  if enable ns then (ns, fs, Error AlreadyExists, [])
  else
    let adapter :=
      if String.eqb (src ns) BDADDR_ANY then
        match route e with
        | None => None
        | Some a => Some (set_src a ns, store_server (set_src a ns) fs)
        end
      else Some (ns, fs) in
    match adapter with
    | None => (ns, fs, Error Failed, [])
    | Some (ns, fs) =>
        if negb (reply e) then (ns, fs, NeedMemory, [])
        else
          let '(handle, acts) := register_server_record security ns e in
          let ns := set_record_id handle ns in
          if handle =? 0 then (ns, fs, Error Failed, acts)
          else
            let ns := set_enable true ns in
            (ns, store_property (src ns) (id ns) "enabled" "1" fs, Return,
             acts ++ [Signal (path ns) "Enabled"])
    end.

(** [disable]. *)
Definition disable (ns : network_server)
    (fs : gmap (string * string) (gmap string string)) (e : env)
  : network_server * gmap (string * string) (gmap string string)
    * result * list action :=
  if negb (reply e) then (ns, fs, NeedMemory, [])
  else if negb (enable ns) then (ns, fs, Error Failed, [])
  else
    let removed :=
      if record_id ns =? 0 then [] else [RemoveRecord (record_id ns)] in
    let ns1 := set_enable false (set_record_id 0 ns) in
    (ns1, store_property (src ns1) (id ns1) "enabled" "0" fs, Return,
     removed ++ map KillConnection (clients ns1)
     ++ [Signal (path ns1) "Disabled"]).

(** [is_enabled]. *)
Definition is_enabled (ns : network_server)
    (fs : gmap (string * string) (gmap string string)) (e : env)
  : network_server * gmap (string * string) (gmap string string)
    * result * list action :=
  if negb (reply e) then (ns, fs, NeedMemory, [])
  else (ns, fs, ReturnBool (enable ns), []).

(** [set_name]. *)
Definition set_name (security : bool) (ns : network_server)
    (fs : gmap (string * string) (gmap string string)) (e : env)
  : network_server * gmap (string * string) (gmap string string)
    * result * list action :=
  if negb (reply e) then (ns, fs, NeedMemory, [])
  else
    match args e with
    | None => (ns, fs, Error InvalidArguments, [])
    | Some new =>
        if (String.length new =? 0)%nat
        then (ns, fs, Error InvalidArguments, [])
        else
          let ns := set_name_field (Some new) ns in
          let stored ns acts :=
            (ns, store_property (src ns) (id ns) "name" new fs, Return,
             acts) in
          if enable ns && negb (record_id ns =? 0) then
            let '(handle, acts) := register_server_record security ns e in
            if handle =? 0 then (ns, fs, Error Failed, acts)
            else
              stored (set_record_id handle ns)
                (acts ++ [RemoveRecord (record_id ns)])
          else stored ns []
    end.

(** [get_name]. *)
Definition get_name (ns : network_server)
    (fs : gmap (string * string) (gmap string string)) (e : env)
  : network_server * gmap (string * string) (gmap string string)
    * result * list action :=
  if negb (reply e) then (ns, fs, NeedMemory, [])
  else (ns, fs, ReturnString (default ""%string (name ns)), []).

(** [set_address_range]. *)
Definition set_address_range (ns : network_server)
    (fs : gmap (string * string) (gmap string string)) (e : env)
  : network_server * gmap (string * string) (gmap string string)
    * result * list action :=
  (ns, fs, NotYetHandled, []).

(** [set_routing]. *)
Definition set_routing (ns : network_server)
    (fs : gmap (string * string) (gmap string string)) (e : env)
  : network_server * gmap (string * string) (gmap string string)
    * result * list action :=
  if negb (reply e) then (ns, fs, NeedMemory, [])
  else
    match args e with
    | None => (ns, fs, Error InvalidArguments, [])
    | Some new =>
        if (String.length new =? 0)%nat
        then (ns, fs, Error InvalidArguments, [])
        else (set_iface (Some new) ns, fs, Return, [])
    end.

(** The entries of [server_methods] that do not go through
    [bnep_uuid]. *)
Inductive method :=
| Enable | Disable | IsEnabled | SetName | GetName | SetAddressRange
| SetRouting.

Definition handler (m : method) (security : bool) (ns : network_server)
    (fs : gmap (string * string) (gmap string string)) (e : env)
  : network_server * gmap (string * string) (gmap string string)
    * result * list action :=
  match m with
  | Enable => enable_method security ns fs e
  | Disable => disable ns fs e
  | IsEnabled => is_enabled ns fs e
  | SetName => set_name security ns fs e
  | GetName => get_name ns fs e
  | SetAddressRange => set_address_range ns fs e
  | SetRouting => set_routing ns fs e
  end.

(** *** Registration *)

(** [server_register]; the result is the value returned, the registry
    of object paths and what was done to the record server. *)
Definition server_register (reg : gmap string network_server)
    (path : option string) (src : string) (id : Z) (e : env)
  : Z * gmap string network_server :=
  match path with
  | None => (- EINVAL, reg)
  | Some path =>
      if negb (object_path e) || bool_decide (is_Some (reg !! path))
      then (-1, reg)
      else if negb (interface e) then (-1, reg)
      else
        let name :=
          if id =? BNEP_SVC_NAP then "BlueZ NAP service"%string
          else if id =? BNEP_SVC_GN then "BlueZ GN service"%string
          else "BlueZ PANU service"%string in
        (0, <[path := Server src None (Some name) None path false 0 id []]>
              reg)
  end.

(** [server_register_from_file]; next to the registry, the records put
    on and taken off the record server. *)
Definition server_register_from_file (security : bool)
    (reg : gmap string network_server) (path : option string) (src : string)
    (id : Z) (filename : string * string)
    (fs : gmap (string * string) (gmap string string)) (e : env)
  : Z * gmap string network_server * list action :=
  match path with
  | None => (- EINVAL, reg, [])
  | Some path =>
      match textfile_get filename "name" fs with
      | None => (-1, reg, [])
      | Some name =>
          let ns :=
            Server src (textfile_get filename "routing" fs) (Some name)
              (textfile_get filename "address_range" fs) path false 0 id
              [] in
          let '(ns, acts) :=
            match textfile_get filename "enabled" fs with
            | Some str =>
                if String.eqb "1" str then
                  let '(handle, acts) :=
                    register_server_record security ns e in
                  (set_enable true (set_record_id handle ns), acts)
                else (ns, [])
            | None => (ns, [])
            end in
          let freed :=
            if record_id ns =? 0 then [] else [RemoveRecord (record_id ns)] in
          if negb (object_path e) || bool_decide (is_Some (reg !! path))
          then (-1, reg, acts ++ freed)
          else if negb (interface e) then (-1, reg, acts ++ freed)
          else (0, <[path := ns]> reg, acts)
      end
  end.

(** *** Start-up *)

(** What the system calls of [server_init] return: the descriptor
    [socket] gave or its [errno], and for each later call the [errno] of
    a failure.  What [bridge_create] returns is only logged. *)
Record sys := Sys {
  sys_socket : Z + Z;
  sys_bind : option Z;
  sys_getsockopt : option Z;
  sys_setsockopt : option Z;
  sys_link_mode : option Z;
  sys_listen : option Z
}.

Inductive syscall :=
| Bind (sk : Z)
| GetOptions (sk : Z)
| SetOptions (sk mtu : Z)
| SetLinkMode (sk : Z)
| Listen (sk : Z)
| AddWatch (sk : Z)
| BridgeCreate (id : Z)
| CloseSocket (sk : Z).

(** The globals [server_init] writes: [security] and whether [bnep_io]
    holds the listening channel. *)
Record globals := Globals {
  security : bool;
  bnep_io : option Z
}.

(** [server_init]; [secure] is its argument. *)
Definition server_init (g : globals) (secure : bool) (s : sys)
  : Z * globals * list syscall :=
  match sys_socket s with
  | inr err => (- err, g, [])
  | inl sk =>
      let fail (gl : globals) (done : list syscall) (err : Z) :=
        (- err, gl, done ++ [CloseSocket sk]) in
      match sys_bind s with
      | Some err => fail g [Bind sk] err
      | None =>
          match sys_getsockopt s with
          | Some err => fail g [Bind sk; GetOptions sk] err
          | None =>
              let done := [Bind sk; GetOptions sk; SetOptions sk BNEP_MTU] in
              match sys_setsockopt s with
              | Some err => fail g done err
              | None =>
                  let lm := if secure then [SetLinkMode sk] else [] in
                  match (if secure then sys_link_mode s else None) with
                  | Some err => fail g (done ++ lm) err
                  | None =>
                      let g1 := Globals secure (bnep_io g) in
                      let done := done ++ lm ++ [Listen sk] in
                      match sys_listen s with
                      | Some err => fail g1 done err
                      | None =>
                          (0, Globals secure (Some sk),
                           done ++ [AddWatch sk; BridgeCreate BNEP_SVC_GN])
                      end
                  end
              end
          end
      end
  end.
End Admin.

(** The fields of a server the admission path looks at. *)
Definition core (ns : Admin.network_server) : network_server :=
  NetworkServer (Admin.enable ns) (Admin.record_id ns) (Admin.id ns)
    (Admin.clients ns).

(** The record handle and the enable flag agree. *)
Definition consistent (ns : Admin.network_server) : Prop :=
  Admin.enable ns = true ↔ Admin.record_id ns ≠ 0.

(** One of the system calls [server_init] makes failed with [err]; the
    link mode is only set for a secure server. *)
Definition sys_failure (s : Admin.sys) (secure : bool) (err : Z) : Prop :=
  Admin.sys_socket s = inr err
  ∨ Admin.sys_bind s = Some err
  ∨ Admin.sys_getsockopt s = Some err
  ∨ Admin.sys_setsockopt s = Some err
  ∨ (secure = true ∧ Admin.sys_link_mode s = Some err)
  ∨ Admin.sys_listen s = Some err.

(** *** Scenarios of the instances *)

Definition adapter0 : string := "00:1A:7D:DA:71:13".

Definition nap_path : string := "/org/bluez/network/nap".

(** The NAP server as [server_register] leaves it. *)
Definition admin_nap : Admin.network_server :=
  Admin.Server adapter0 None (Some "BlueZ NAP service"%string) None nap_path
    false 0 BNEP_SVC_NAP [].

(** The same server, enabled, with one client and a route. *)
Definition admin_nap_on : Admin.network_server :=
  Admin.Server adapter0 (Some "eth0"%string)
    (Some "BlueZ NAP service"%string) (Some "10.0.0.0/24"%string) nap_path
    true 0x10000 BNEP_SVC_NAP [peer0].

(** Every library call succeeds; the method argument is "Office". *)
Definition admin_env : Admin.env :=
  Admin.Env true (Some "Office"%string) (Some adapter0) true (Some 0x10001)
    true true.

(** The record server refuses the record. *)
Definition admin_env_no_record : Admin.env :=
  Admin.Env true (Some "Office"%string) (Some adapter0) true None true true.

(** The record is taken, the interface is refused. *)
Definition admin_env_no_interface : Admin.env :=
  Admin.Env true (Some "Office"%string) (Some adapter0) true (Some 0x10001)
    true false.

(** The method call has no argument. *)
Definition admin_env_no_args : Admin.env :=
  Admin.Env true None (Some adapter0) true (Some 0x10001) true true.

(** A stored NAP server that was enabled. *)
Definition nap_file : string * string := Admin.create_name adapter0 "nap".

Definition fs_nap : gmap (string * string) (gmap string string) :=
  Admin.textfile_put nap_file "enabled" "1"
    (Admin.textfile_put nap_file "name" "Office" ∅).

Definition sys_ok : Admin.sys := Admin.Sys (inl 7) None None None None None.

(** EADDRINUSE from [listen]. *)
Definition sys_listen_fails : Admin.sys :=
  Admin.Sys (inl 7) None None None None (Some 98).

(** ** Theorems *)

(** *** The session list *)

Section session_list.
Implicit Types (l : list setup_session) (p : nat) (s : setup_session).

Lemma g_slist_find_Some l p s :
  g_slist_find l p = Some s → s ∈ l ∧ ptr s = p.
Proof.
  unfold g_slist_find. induction l as [|x l IH]; simpl; [done|].
  destruct (Nat.eqb_spec (ptr x) p) as [Heq|Hne].
  - intros [= ->]. split; [left|done].
  - intros Hf. destruct (IH Hf). split; [by right|done].
Qed.

Lemma g_slist_find_None l p :
  g_slist_find l p = None ↔ p ∉ ptr <$> l.
Proof.
  unfold g_slist_find. induction l as [|x l IH]; simpl.
  - split; [intros _; apply not_elem_of_nil|done].
  - rewrite not_elem_of_cons.
    destruct (Nat.eqb_spec (ptr x) p) as [Heq|Hne].
    + split; [done|]. intros [Hne _]. by destruct Hne.
    + rewrite IH. intuition.
Qed.

Lemma ptr_inj l s1 s2 :
  NoDup (ptr <$> l) → s1 ∈ l → s2 ∈ l → ptr s1 = ptr s2 → s1 = s2.
Proof.
  induction l as [|x l IH]; simpl.
  - intros _ H. by apply elem_of_nil in H.
  - rewrite NoDup_cons. intros [Hx Hl] H1 H2 Heq.
    apply elem_of_cons in H1 as [->|H1], H2 as [->|H2]; try done.
    + destruct Hx. rewrite Heq. by apply list_elem_of_fmap_2.
    + destruct Hx. rewrite <- Heq. by apply list_elem_of_fmap_2.
    + by apply IH.
Qed.

Lemma g_slist_remove_sublist l p : g_slist_remove l p `sublist_of` l.
Proof.
  induction l as [|x l IH]; simpl; [done|].
  destruct (Nat.eqb (ptr x) p).
  - by apply sublist_cons.
  - by apply sublist_skip.
Qed.

Lemma g_slist_remove_gone l p :
  NoDup (ptr <$> l) → p ∉ ptr <$> g_slist_remove l p.
Proof.
  induction l as [|x l IH]; simpl; [intros _; apply not_elem_of_nil|].
  rewrite NoDup_cons. intros [Hx Hl].
  destruct (Nat.eqb_spec (ptr x) p) as [<-|Hne]; [done|].
  rewrite fmap_cons, not_elem_of_cons. split; [done|by apply IH].
Qed.

Lemma store_ptr s' l : ptr <$> store s' l = ptr <$> l.
Proof.
  unfold store. rewrite <- list_fmap_compose. apply list_fmap_ext.
  intros _ x _. simpl. by destruct (Nat.eqb_spec (ptr x) (ptr s')).
Qed.

Lemma store_address s s' l :
  NoDup (ptr <$> l) → s ∈ l → ptr s' = ptr s → address s' = address s →
  address <$> store s' l = address <$> l.
Proof.
  intros Hnd Hin Hp Ha. unfold store. rewrite <- list_fmap_compose.
  apply list_fmap_ext. intros i x Hx. simpl.
  destruct (Nat.eqb_spec (ptr x) (ptr s')) as [Heq|]; [|done].
  apply list_elem_of_lookup_2 in Hx.
  assert (x = s) as -> by (eapply ptr_inj; eauto; congruence). done.
Qed.

Lemma elem_of_store x s' l :
  x ∈ store s' l → x = s' ∨ (x ∈ l ∧ ptr x ≠ ptr s').
Proof.
  unfold store. intros (y & -> & Hy)%list_elem_of_fmap.
  destruct (Nat.eqb_spec (ptr y) (ptr s')); [by left|by right].
Qed.

Lemma g_slist_find_store l s s' :
  g_slist_find l (ptr s') = Some s →
  g_slist_find (store s' l) (ptr s') = Some s'.
Proof.
  unfold g_slist_find, store. induction l as [|x l IH]; simpl; [done|].
  destruct (Nat.eqb_spec (ptr x) (ptr s')) as [Heq|Hne].
  - intros _. by rewrite Nat.eqb_refl.
  - intros Hf. destruct (Nat.eqb_spec (ptr x) (ptr s')); [done|]. auto.
Qed.

Lemma strcmp_same (a : string) : String.compare a a = Eq.
Proof.
  pose proof (String.compare_antisym a a) as H.
  destruct (String.compare a a); simpl in H; congruence.
Qed.

Lemma g_slist_find_custom_None l a :
  g_slist_find_custom l a = None → a ∉ address <$> l.
Proof.
  unfold g_slist_find_custom, setup_cmp.
  induction l as [|x l IH]; simpl; [intros _; apply not_elem_of_nil|].
  destruct (String.compare (address x) a) eqn:Hc; [done| |];
    intros Hf; apply not_elem_of_cons; (split; [|by apply IH]);
    intros ->; rewrite strcmp_same in Hc; congruence.
Qed.

Lemma g_slist_find_custom_Some l a :
  a ∈ address <$> l → is_Some (g_slist_find_custom l a).
Proof.
  unfold g_slist_find_custom, setup_cmp.
  induction l as [|x l IH]; simpl; [by intros ?%elem_of_nil|].
  intros [->|Hin]%elem_of_cons.
  - rewrite strcmp_same. by eexists.
  - destruct (String.compare (address x) a); eauto.
Qed.
Lemma g_slist_find_custom_absent (l : list setup_session) a :
  a ∉ address <$> l → g_slist_find_custom l a = None.
Proof.
  unfold g_slist_find_custom, setup_cmp.
  induction l as [|x l IH]; [done|].
  rewrite fmap_cons, not_elem_of_cons. intros [Hne Hl]. simpl.
  destruct (String.compare (address x) a) eqn:Hc; auto.
  apply String.compare_eq_iff in Hc. congruence.
Qed.

Lemma g_slist_find_app (l : list setup_session) s p :
  g_slist_find (l ++ [s]) p
  = match g_slist_find l p with
    | Some x => Some x
    | None => if Nat.eqb (ptr s) p then Some s else None
    end.
Proof.
  unfold g_slist_find. induction l as [|x l IH]; simpl; [done|].
  by destruct (Nat.eqb (ptr x) p).
Qed.

Lemma g_slist_find_store_other (l : list setup_session) s' q :
  q ≠ ptr s' → g_slist_find (store s' l) q = g_slist_find l q.
Proof.
  intros Hne. unfold g_slist_find, store.
  induction l as [|x l IH]; simpl; [done|].
  destruct (Nat.eqb_spec (ptr x) (ptr s')) as [Heq|Hx].
  - destruct (Nat.eqb_spec (ptr s') q); [congruence|].
    destruct (Nat.eqb_spec (ptr x) q); [congruence|]. done.
  - by destruct (Nat.eqb (ptr x) q).
Qed.

Lemma g_slist_find_remove_other (l : list setup_session) p q :
  q ≠ p → g_slist_find (g_slist_remove l p) q = g_slist_find l q.
Proof.
  intros Hne. unfold g_slist_find.
  induction l as [|x l IH]; simpl; [done|].
  destruct (Nat.eqb_spec (ptr x) p) as [Heq|Hx].
  - destruct (Nat.eqb_spec (ptr x) q); [congruence|done].
  - simpl. by destruct (Nat.eqb (ptr x) q).
Qed.

Lemma g_slist_remove_last (l : list setup_session) s :
  ptr s ∉ ptr <$> l → g_slist_remove (l ++ [s]) (ptr s) = l.
Proof.
  induction l as [|x l IH]; simpl.
  - intros _. by rewrite Nat.eqb_refl.
  - rewrite not_elem_of_cons. intros [Hne Hl].
    destruct (Nat.eqb_spec (ptr x) (ptr s)); [congruence|].
    by rewrite IH.
Qed.

End session_list.

(** C7: for every pair of role values, [chk_role] answers as the table
    says: acceptance (0) when dst is NAP or GN and src is PANU, or when dst
    is PANU and src is PANU, GN or NAP; INVALID_SRC when dst is one of the
    three roles and src is anything else; INVALID_DST for every other dst,
    whatever src is. *)
Theorem chk_role_table (dst src : Z) :
  let role r := r = BNEP_SVC_NAP ∨ r = BNEP_SVC_GN ∨ r = BNEP_SVC_PANU in
  let accepted :=
    ((dst = BNEP_SVC_NAP ∨ dst = BNEP_SVC_GN) ∧ src = BNEP_SVC_PANU)
    ∨ (dst = BNEP_SVC_PANU ∧ role src) in
  (accepted → chk_role dst src = 0)
  ∧ (role dst → ¬ accepted → chk_role dst src = BNEP_CONN_INVALID_SRC)
  ∧ (¬ role dst → chk_role dst src = BNEP_CONN_INVALID_DST)
  ∧ BNEP_CONN_INVALID_SRC ≠ 0 ∧ BNEP_CONN_INVALID_DST ≠ 0
  ∧ BNEP_CONN_INVALID_SRC ≠ BNEP_CONN_INVALID_DST.
Proof.
  unfold chk_role, BNEP_SVC_NAP, BNEP_SVC_GN, BNEP_SVC_PANU,
    BNEP_CONN_INVALID_SRC, BNEP_CONN_INVALID_DST.
  cbv zeta.
  repeat match goal with
         | |- context [?a =? ?b] => destruct (Z.eqb_spec a b)
         end; cbn [orb]; repeat split; intros; try lia; try done;
    exfalso; intuition lia.
Qed.

(** *** Pending calls *)

Section pending.
Implicit Types (l k : list nat) (p : nat).

Lemma count_app l k p :
  length (filter (λ q, q = p) (l ++ k))
  = (length (filter (λ q, q = p) l) + length (filter (λ q, q = p) k))%nat.
Proof. by rewrite filter_app, length_app. Qed.


Lemma count_delete_other l n d p :
  l !! n = Some d → p ≠ d →
  length (filter (λ q, q = p) (delete n l))
  = length (filter (λ q, q = p) l).
Proof.
  revert n. induction l as [|x l IH]; intros [|n]; simpl; try done.
  - intros [= ->] Hne. rewrite filter_cons. case_decide; [congruence|done].
  - intros Hn Hne. rewrite !filter_cons.
    case_decide; simpl; by rewrite (IH n).
Qed.

End pending.

(** *** What one run of the session handler can do *)

Lemma connect_setup_event_frame srv s cond dgram e keep s1 out :
  connect_setup_event srv s cond dgram e = (keep, s1, out) →
  ptr s1 = ptr s ∧ address s1 = address s ∧ nsk s1 = nsk s
  ∧ (if keep
     then attempts s1 = attempts s + 1
          ∧ attempts s1 ≤ MAX_SETUP_ATTEMPTS
          ∧ timeout s1 = 0
          ∧ out = [RequestAuthorization (ptr s) (address s) (dst_role s1)]
     else (attempts s1 = attempts s ∨ attempts s1 = attempts s + 1)
          ∧ new_calls out = []).
Proof.
  unfold connect_setup_event, authorize_connection, cancel_authorization,
    send_bnep_ctrl_rsp.
  destruct (recv dgram) as [r pkt].
  repeat case_match; simplify_eq/=; intros; simplify_eq/=;
    repeat split; auto; lia.
Qed.

(** *** The teardown *)

Lemma set_sessions_id st : set_sessions (setup_sessions st) st = st.
Proof. by destruct st. Qed.

Lemma g_slist_remove_other_twice (l : list setup_session) p q :
  q ≠ p →
  g_slist_find (g_slist_remove (g_slist_remove l p) p) q = g_slist_find l q.
Proof. intros Hne. by rewrite !g_slist_find_remove_other. Qed.

(** Whatever the list holds, the teardown only takes sessions under the
    pointer it is given off the list, and all it does to the outside is
    to release memory. *)
Lemma setup_watch_destroy_shape installed st data :
  ∃ l,
    (setup_watch_destroy installed st data).1 = set_sessions l st
    ∧ l `sublist_of` setup_sessions st
    ∧ (∀ q, q ≠ data →
            g_slist_find l q = g_slist_find (setup_sessions st) q)
    ∧ Forall (λ a, ∃ p, a = SetupFree p)
        (setup_watch_destroy installed st data).2.
Proof.
  unfold setup_watch_destroy.
  destruct (g_slist_find (setup_sessions st) data) as [s|] eqn:Hfind.
  - apply g_slist_find_Some in Hfind as [_ Hptr]. rewrite Hptr. cbv zeta.
    destruct (installed && truthy (watch s)).
    + unfold watch_removed. cbn [setup_sessions set_sessions].
      destruct (g_slist_find (g_slist_remove (setup_sessions st) data) data)
        as [s'|] eqn:Hfind'.
      * apply g_slist_find_Some in Hfind' as [_ Hptr']. rewrite Hptr'.
        eexists. cbn [fst snd set_sessions setup_sessions].
        split_and!; [by destruct st| | |repeat constructor; by eexists].
        -- etrans; apply g_slist_remove_sublist.
        -- intros q Hq. by apply g_slist_remove_other_twice.
      * eexists. cbn [fst snd].
        split_and!; [done| | |repeat constructor; by eexists].
        -- apply g_slist_remove_sublist.
        -- intros q Hq. by apply g_slist_find_remove_other.
    + eexists. cbn [fst snd].
      split_and!; [done| | |repeat constructor; by eexists].
      * apply g_slist_remove_sublist.
      * intros q Hq. by apply g_slist_find_remove_other.
  - exists (setup_sessions st). rewrite set_sessions_id. by split_and!.
Qed.

Lemma freed_no_send (out : list action) :
  Forall (λ a, ∃ p, a = SetupFree p) out →
  filter is_send out = [] ∧ new_calls out = [].
Proof.
  induction 1 as [|a out [p ->] _ [IH1 IH2]]; [done|].
  split; [by rewrite filter_cons|done].
Qed.

Lemma setup_watch_destroy_no_send installed st data :
  filter is_send (setup_watch_destroy installed st data).2 = [].
Proof.
  destruct (setup_watch_destroy_shape installed st data) as (l & _ & _ & _ & H).
  by apply freed_no_send.
Qed.




Lemma setup_watch_destroy_listening installed st data :
  listening (setup_watch_destroy installed st data).1 = listening st.
Proof.
  by destruct (setup_watch_destroy_shape installed st data) as (l & -> & _).
Qed.

Lemma setup_watch_destroy_sessions installed st data x :
  x ∈ setup_sessions (setup_watch_destroy installed st data).1 →
  x ∈ setup_sessions st.
Proof.
  destruct (setup_watch_destroy_shape installed st data)
    as (l & -> & Hsub & _).
  intros Hx. by eapply elem_of_sublist.
Qed.

Lemma setup_watch_destroy_other installed st data q :
  q ≠ data →
  g_slist_find (setup_sessions (setup_watch_destroy installed st data).1) q
  = g_slist_find (setup_sessions st) q.
Proof.
  destruct (setup_watch_destroy_shape installed st data)
    as (l & -> & _ & Hl & _).
  apply Hl.
Qed.

Lemma authorization_callback_no_calls st data reply e :
  new_calls (authorization_callback st data reply e).2 = [].
Proof.
  unfold authorization_callback, cancel_authorization.
  by repeat case_match.
Qed.


(** *** The invariant *)

Lemma inv_initial : inv initial_state.
Proof.
  split; simpl; try (by intros ? ?%elem_of_nil); try constructor.
Qed.

Lemma set_servers_id st : set_servers (servers st) st = st.
Proof. by destruct st. Qed.

Lemma inv_set_servers st m : inv st → inv (set_servers m st).
Proof. intros []. by split. Qed.

Lemma inv_set_listening st b : inv st → inv (set_listening b st).
Proof. intros []. by split. Qed.

Lemma g_slist_remove_absent (l : list setup_session) p :
  g_slist_find l p = None → g_slist_remove l p = l.
Proof.
  unfold g_slist_find. induction l as [|x l IH]; simpl; [done|].
  destruct (Nat.eqb (ptr x) p); [done|]. intros H. by rewrite IH.
Qed.

Lemma destroyed_not_found st data :
  inv st →
  g_slist_find (g_slist_remove (setup_sessions st) data) data = None.
Proof. intros Hinv. apply g_slist_find_None, g_slist_remove_gone, Hinv. Qed.

(** Once the session is off the list, the notification of its watch
    finds nothing to do. *)
Lemma watch_removed_gone st data :
  NoDup (ptr <$> setup_sessions st) →
  watch_removed
    (set_sessions (g_slist_remove (setup_sessions st) data) st) data
  = (set_sessions (g_slist_remove (setup_sessions st) data) st, []).
Proof.
  intros Hnd. unfold watch_removed. cbn [setup_sessions set_sessions].
  by rewrite (proj2 (g_slist_find_None _ _) (g_slist_remove_gone _ data Hnd)).
Qed.

(** The teardown of a live session takes it off the list and releases
    it, once. *)
Lemma setup_watch_destroy_found installed st data s :
  NoDup (ptr <$> setup_sessions st) →
  g_slist_find (setup_sessions st) data = Some s →
  setup_watch_destroy installed st data
  = (set_sessions (g_slist_remove (setup_sessions st) data) st,
     [SetupFree data]).
Proof.
  intros Hnd Hfind. unfold setup_watch_destroy. rewrite Hfind.
  apply g_slist_find_Some in Hfind as [_ ->]. cbv zeta.
  destruct (installed && truthy (watch s)); [|done].
  by rewrite watch_removed_gone.
Qed.

Lemma inv_remove st data :
  inv st → inv (set_sessions (g_slist_remove (setup_sessions st) data) st).
Proof.
  intros [Hp Ha Hf Hat Hsrc Htm].
  pose proof (g_slist_remove_sublist (setup_sessions st) data) as Hsub.
  split; simpl.
  - eapply sublist_NoDup; [exact Hp|]. by apply fmap_sublist.
  - eapply sublist_NoDup; [exact Ha|]. by apply fmap_sublist.
  - intros x Hx. apply Hf. by eapply elem_of_sublist.
  - intros x Hx. apply (Hat x). by eapply elem_of_sublist.
  - done.
  - intros x Hx. apply (Htm x). by eapply elem_of_sublist.
Qed.

(** A reply takes its call off the pending list and ends the session
    under the pointer of the call, if there is one; the calls that carry
    the other sessions stay. *)
Lemma inv_reply st n data :
  inv st →
  pending_calls st !! n = Some data →
  inv (set_sessions (g_slist_remove (setup_sessions st) data)
         (set_pending (delete n (pending_calls st)) st)).
Proof.
  intros Hinv Hn.
  pose proof (inv_remove st data Hinv) as [Hp Ha Hf Hat Hsrc Htm].
  split; try done. cbn [setup_sessions set_sessions set_pending] in *.
  intros x Hx. destruct (Hat x Hx) as [Hr Hle]. split; [done|].
  assert (ptr x ≠ data) as Hne.
  { intros <-.
    by apply (g_slist_remove_gone (setup_sessions st) (ptr x)
                (inv_ptr_nodup st Hinv)), list_elem_of_fmap_2. }
  unfold outstanding in *. cbn [pending_calls set_sessions set_pending] in *.
  by rewrite (count_delete_other _ n data (ptr x)).
Qed.

Lemma authorization_callback_servers st data reply e :
  ∃ m, (authorization_callback st data reply e).1 = set_servers m st.
Proof.
  unfold authorization_callback.
  repeat case_match; simpl; eauto using eq_sym, set_servers_id.
Qed.

Lemma g_new0_not_live st block :
  inv st → g_slist_find (setup_sessions st) (g_new0 st block) = None.
Proof.
  intros Hinv. unfold g_new0.
  destruct (g_slist_find (setup_sessions st) block) eqn:Hb; [|done].
  apply g_slist_find_None. intros (x & Hx & Hin)%list_elem_of_fmap.
  pose proof (inv_ptr_fresh st Hinv x Hin). lia.
Qed.

Lemma inv_connect_event st cond acc block :
  inv st → inv (connect_event st cond acc block).1.2.
Proof.
  intros Hinv. unfold connect_event.
  repeat case_match; simplify_eq/=; try done.
  pose proof (g_new0_not_live st block Hinv) as Hnl.
  apply g_slist_find_None in Hnl.
  destruct Hinv as [Hp Ha Hf Hat Hsrc Htm].
  match goal with H : g_slist_find_custom _ _ = None |- _ =>
    apply g_slist_find_custom_None in H; rename H into Hnew end.
  split; simpl.
  - rewrite fmap_app. apply NoDup_app. split_and!; [done| |apply NoDup_singleton].
    intros p Hin Hp'%list_elem_of_singleton. simpl in Hp'. congruence.
  - rewrite fmap_app. apply NoDup_app. split_and!; [done| |apply NoDup_singleton].
    intros a Hin Ha'%list_elem_of_singleton. simpl in Ha'. congruence.
  - intros y [Hy| ->%list_elem_of_singleton]%elem_of_app; simpl.
    + specialize (Hf y Hy). lia.
    + lia.
  - intros y [Hy| ->%list_elem_of_singleton]%elem_of_app.
    + apply (Hat y Hy).
    + unfold outstanding, MAX_SETUP_ATTEMPTS. simpl. lia.
  - lia.
  - intros y [Hy| ->%list_elem_of_singleton]%elem_of_app; simpl.
    + apply (Htm y Hy).
    + lia.
Qed.

Lemma store_absent s' (l : list setup_session) :
  ptr s' ∉ ptr <$> l → store s' l = l.
Proof.
  unfold store. induction l as [|x l IH]; [done|].
  rewrite fmap_cons, not_elem_of_cons. intros [Hne Hl].
  rewrite fmap_cons, IH by done.
  destruct (Nat.eqb_spec (ptr x) (ptr s')); [congruence|done].
Qed.

Lemma g_slist_remove_store s' (l : list setup_session) :
  NoDup (ptr <$> l) →
  g_slist_remove (store s' l) (ptr s') = g_slist_remove l (ptr s').
Proof.
  induction l as [|x l IH]; [done|].
  rewrite fmap_cons, NoDup_cons. intros [Hx Hl].
  unfold store. rewrite fmap_cons. fold (store s' l). simpl.
  destruct (Nat.eqb_spec (ptr x) (ptr s')) as [Heq|Hne].
  - rewrite Nat.eqb_refl. apply store_absent. by rewrite <- Heq.
  - destruct (Nat.eqb_spec (ptr x) (ptr s')); [done|]. by rewrite IH.
Qed.

(** A run of the session handler that returns FALSE leaves the state
    the teardown of the session would have left, and its calls are
    followed by the release of the session. *)
Lemma step_setup_io_drop st data cond dgram e s s1 out :
  inv st →
  g_slist_find (setup_sessions st) data = Some s →
  connect_setup_event (servers st) s cond dgram e = (false, s1, out) →
  step st (SetupIO data cond dgram e)
  = (set_sessions (g_slist_remove (setup_sessions st) data) st,
     out ++ [SetupFree data]).
Proof.
  intros Hinv Hfind Hev. simpl. rewrite Hfind, Hev.
  pose proof Hev as (Hptr & _ & _ & _ & Hnew)%connect_setup_event_frame.
  pose proof Hfind as [Hin Hdata]%g_slist_find_Some.
  rewrite Hnew, app_nil_r. unfold setup_watch_destroy. simpl.
  assert (data = ptr s1) as Hd by congruence.
  rewrite Hd at 1. erewrite g_slist_find_store by (rewrite Hptr, Hdata; done).
  rewrite g_slist_remove_store by apply Hinv.
  rewrite <- Hd. by destruct st.
Qed.

(** A run that returns TRUE has issued one RequestAuthorization, which
    joins the pending calls, and has written the session back. *)
Lemma step_setup_io_keep st data cond dgram e s s1 out :
  g_slist_find (setup_sessions st) data = Some s →
  connect_setup_event (servers st) s cond dgram e = (true, s1, out) →
  step st (SetupIO data cond dgram e)
  = (set_pending (pending_calls st ++ [data])
       (set_sessions (store s1 (setup_sessions st)) st),
     [RequestAuthorization data (address s) (dst_role s1)]).
Proof.
  intros Hfind Hev. simpl. rewrite Hfind, Hev.
  pose proof Hev as (_ & _ & _ & _ & _ & _ & ->)%connect_setup_event_frame.
  pose proof Hfind as [_ ->]%g_slist_find_Some. done.
Qed.

Lemma outstanding_issued st s1 p q :
  outstanding
    (set_pending (pending_calls st ++ [q])
       (set_sessions (store s1 (setup_sessions st)) st)) p
  = (outstanding st p + if decide (q = p) then 1 else 0)%nat.
Proof.
  unfold outstanding. simpl. rewrite count_app.
  f_equal. rewrite filter_cons. by case_decide.
Qed.

Lemma inv_setup_io st data cond dgram e :
  inv st → inv (step st (SetupIO data cond dgram e)).1.
Proof.
  intros Hinv.
  destruct (g_slist_find (setup_sessions st) data) as [s|] eqn:Hfind;
    [|by simpl; rewrite Hfind].
  destruct (connect_setup_event (servers st) s cond dgram e)
    as [[[] s1] out] eqn:Hev.
  - erewrite step_setup_io_keep by done. simpl.
    apply connect_setup_event_frame in Hev
      as (Hptr & Haddr & _ & Hatt & Hmax & _ & _).
    apply g_slist_find_Some in Hfind as [Hin <-].
    destruct Hinv as [Hp Ha Hf Hat Hsrc Htm].
    destruct (Hat s Hin) as [Hrange Hout].
    split; simpl.
    + by rewrite store_ptr.
    + by erewrite store_address.
    + intros x [->|[Hx _]]%elem_of_store; [rewrite Hptr|]; auto.
    + intros x Hx. rewrite outstanding_issued.
      apply elem_of_store in Hx as [->|[Hx Hne]].
      * rewrite Hptr, decide_True by done. lia.
      * rewrite decide_False by congruence.
        destruct (Hat x Hx). lia.
    + done.
    + intros x [->|[Hx _]]%elem_of_store; [lia|auto].
  - erewrite step_setup_io_drop by done. by apply inv_remove.
Qed.

Lemma step_timer st data s :
  inv st →
  g_slist_find (setup_sessions st) data = Some s →
  step st (SetupTimer data)
  = if truthy (timeout s)
    then (set_sessions (g_slist_remove (setup_sessions st) data) st,
          [SetupFree data])
    else (st, []).
Proof.
  intros Hinv Hfind. unfold step. rewrite Hfind.
  destruct (truthy (timeout s)); [|done]. unfold setup_timeout.
  erewrite setup_watch_destroy_found; [done|apply Hinv|done].
Qed.

(** A reply whose call carries the pointer of a live session: the
    handler answers that session and the release of the call ends it. *)
Lemma step_auth_reply st n data s reply e :
  inv st →
  pending_calls st !! n = Some data →
  g_slist_find (setup_sessions st) data = Some s →
  step st (AuthReply n reply e)
  = let r := authorization_callback
               (set_pending (delete n (pending_calls st)) st) data reply e in
    (set_sessions (g_slist_remove (setup_sessions st) data) r.1,
     r.2 ++ [SetupFree data]).
Proof.
  intros Hinv Hn Hfind. unfold step. rewrite Hn.
  destruct (authorization_callback_servers
              (set_pending (delete n (pending_calls st)) st) data reply e)
    as [m Hm].
  destruct (authorization_callback _ data reply e) as [st1 out1].
  simpl in Hm. subst st1. cbv zeta.
  erewrite (setup_watch_destroy_found true
              (set_servers m (set_pending (delete n (pending_calls st)) st))
              data s); [done|apply Hinv|done].
Qed.

(** A reply whose call carries a pointer that no live session has. *)
Lemma step_auth_reply_gone st n data reply e :
  pending_calls st !! n = Some data →
  g_slist_find (setup_sessions st) data = None →
  step st (AuthReply n reply e)
  = (set_pending (delete n (pending_calls st)) st, []).
Proof.
  intros Hn Hfind. unfold step. rewrite Hn.
  unfold authorization_callback, setup_watch_destroy.
  cbn [setup_sessions set_pending]. rewrite Hfind.
  cbn [setup_sessions set_pending]. by rewrite Hfind.
Qed.

Lemma inv_step st ev : inv st → inv (step st ev).1.
Proof.
  intros Hinv. destruct ev as [cond acc block|data cond dgram e|data
                              |n reply e|role id|role id enabled|role
                              |role adapter rec|role].
  - simpl. destruct (listening st); [|done].
    pose proof (inv_connect_event st cond acc block Hinv) as H.
    destruct (connect_event st cond acc block) as [[keep st1] out].
    by apply inv_set_listening.
  - by apply inv_setup_io.
  - destruct (g_slist_find (setup_sessions st) data) as [s|] eqn:Hfind;
      [|by unfold step; rewrite Hfind].
    erewrite step_timer by done.
    destruct (truthy (timeout s)); [by apply inv_remove|done].
  - destruct (pending_calls st !! n) as [data|] eqn:Hn;
      [|by unfold step; rewrite Hn].
    pose proof (inv_reply st n data Hinv Hn) as Hr.
    destruct (g_slist_find (setup_sessions st) data) as [s|] eqn:Hfind.
    + erewrite step_auth_reply by done. cbv zeta. cbn [fst].
      destruct (authorization_callback_servers
                  (set_pending (delete n (pending_calls st)) st) data reply e)
        as [m ->].
      by apply (inv_set_servers _ m) in Hr.
    + erewrite step_auth_reply_gone by done. cbn [fst].
      by rewrite g_slist_remove_absent in Hr by done.
  - by apply inv_set_servers.
  - by apply inv_set_servers.
  - by apply inv_set_servers.
  - by apply inv_set_servers.
  - by apply inv_set_servers.
Qed.

Lemma reachable_inv st : reachable st → inv st.
Proof. induction 1; [apply inv_initial|by apply inv_step]. Qed.

Lemma reachable_run st evs : reachable st → reachable (run st evs).1.
Proof.
  revert st. induction evs as [|ev evs IH]; intros st Hst; [done|].
  simpl. pose proof (reachable_step st ev Hst) as H1.
  destruct (step st ev) as [st1 out1]. specialize (IH st1 H1).
  by destruct (run st1 evs) as [st2 out2].
Qed.

Lemma st_connected_reachable : reachable st_connected.
Proof. apply (reachable_run initial_state boot), reachable_init. Qed.

(** *** The codec *)

Lemma byte_at_bounds pkt i : 0 ≤ byte_at pkt i < 256.
Proof.
  unfold byte_at.
  pose proof (Byte.to_N_bounded (nth (Z.to_nat i) pkt x00)). lia.
Qed.

Lemma recv_bounds dgram :
  (recv dgram).1 = -1 ∨ 0 ≤ (recv dgram).1 < BNEP_MTU.
Proof.
  destruct dgram as [d|]; simpl; [right|by left].
  pose proof (List.firstn_le_length (Z.to_nat (BNEP_MTU - 1)) d).
  unfold BNEP_MTU in *. lia.
Qed.

Lemma size_test dgram :
  byte_at (recv dgram).2 2 ≠ 2
  ∨ (recv dgram).1 ≠ sizeof_setup_conn_req + 2 * byte_at (recv dgram).2 2 →
  negb (byte_at (recv dgram).2 2 =? 2)
  || negb (to_size_t (recv dgram).1
           =? sizeof_setup_conn_req + byte_at (recv dgram).2 2 * 2) = true.
Proof.
  intros H. apply orb_true_iff. rewrite !negb_true_iff, !Z.eqb_neq.
  destruct H as [H|H]; [by left|right].
  pose proof (byte_at_bounds (recv dgram).2 2).
  unfold to_size_t, sizeof_setup_conn_req, BNEP_MTU in *.
  destruct (recv_bounds dgram) as [->|Hr].
  - change (-1 mod 2 ^ 64) with 18446744073709551615. lia.
  - unfold BNEP_MTU in Hr. rewrite Z.mod_small by lia. lia.
Qed.

Lemma readable_spec cond :
  readable cond = true →
  truthy (Z.land cond G_IO_NVAL) = false
  ∧ truthy (Z.land cond (Z.lor G_IO_ERR G_IO_HUP)) = false.
Proof.
  unfold readable. rewrite andb_true_iff, !negb_true_iff. tauto.
Qed.

(** A request that fails the size test. *)
Lemma connect_setup_event_invalid_size srv s cond dgram e :
  readable cond = true →
  byte_at (recv dgram).2 2 ≠ 2
  ∨ (recv dgram).1 ≠ sizeof_setup_conn_req + 2 * byte_at (recv dgram).2 2 →
  connect_setup_event srv s cond dgram e
  = (false, s, send_bnep_ctrl_rsp (nsk s) BNEP_CONN_INVALID_SVC).
Proof.
  intros [Hn Hh]%readable_spec Hsz%size_test.
  unfold connect_setup_event. rewrite Hn, Hh.
  destruct (recv dgram) as [r pkt]. simpl in Hsz. by rewrite Hsz.
Qed.

(** A request that passes the size and type tests: what is left of the
    handler once the roles are read. *)
Lemma connect_setup_event_well_formed srv s cond dgram e :
  readable cond = true →
  setup_request_ok dgram = true →
  connect_setup_event srv s cond dgram e
  = let s1 := with_roles dgram s in
    let response := chk_role (request_src dgram) (request_dst dgram) in
    if truthy response then (false, s1, send_bnep_ctrl_rsp (nsk s) response)
    else if negb (server_usable (srv !! request_dst dgram))
    then (false, s1, send_bnep_ctrl_rsp (nsk s) BNEP_CONN_NOT_ALLOWED)
    else
      let s2 := set_attempts (attempts s + 1) (set_timeout 0 s1) in
      if attempts s + 1 >? MAX_SETUP_ATTEMPTS
      then (false, s2, send_bnep_ctrl_rsp (nsk s) BNEP_CONN_NOT_ALLOWED)
      else
        let '(rc, out) := authorize_connection s2 e in
        if rc <? 0
        then (false, s2,
              out ++ send_bnep_ctrl_rsp (nsk s) BNEP_CONN_NOT_ALLOWED)
        else (true, s2, out).
Proof.
  intros [Hn Hh]%readable_spec Hok.
  unfold connect_setup_event, setup_request_ok, with_roles, request_src,
    request_dst in *.
  rewrite Hn, Hh. destruct (recv dgram) as [r pkt]. cbn [fst snd] in *.
  apply andb_true_iff in Hok as [[[H2 Hsz]%andb_true_iff
                                   Ht]%andb_true_iff Hc].
  rewrite H2, Hsz, Ht, Hc. cbn [negb orb].
  apply Z.eqb_eq in H2. rewrite H2. reflexivity.
Qed.

Lemma connect_setup_event_role_reject srv s cond dgram e :
  readable cond = true →
  setup_request_ok dgram = true →
  chk_role (request_src dgram) (request_dst dgram) ≠ 0 →
  connect_setup_event srv s cond dgram e
  = (false, with_roles dgram s,
     send_bnep_ctrl_rsp (nsk s)
       (chk_role (request_src dgram) (request_dst dgram))).
Proof.
  intros Hc Hok Hrole. rewrite connect_setup_event_well_formed by done.
  cbv zeta. unfold truthy. by rewrite (proj2 (Z.eqb_neq _ _) Hrole).
Qed.

(** A valid request on a session that has counted [attempts s] requests
    so far. *)
Lemma connect_setup_event_valid srv s cond dgram e :
  readable cond = true →
  valid_setup srv dgram = true →
  connect_setup_event srv s cond dgram e
  = let s2 := set_attempts (attempts s + 1)
                (set_timeout 0 (with_roles dgram s)) in
    if attempts s + 1 >? MAX_SETUP_ATTEMPTS
    then (false, s2, send_bnep_ctrl_rsp (nsk s) BNEP_CONN_NOT_ALLOWED)
    else
      let '(rc, out) := authorize_connection s2 e in
      if rc <? 0
      then (false, s2, out ++ send_bnep_ctrl_rsp (nsk s) BNEP_CONN_NOT_ALLOWED)
      else (true, s2, out).
Proof.
  intros Hc [[Hok Hrole]%andb_true_iff Hsrv]%andb_true_iff.
  rewrite connect_setup_event_well_formed by done.
  cbv zeta. unfold truthy. rewrite Hrole, Hsrv. reflexivity.
Qed.

(** C1: the response to a setup request that passed the size and type
    tests, at two requests on which the role table and the handler part.
    For dst = NAP and src = 0x0000 the table gives INVALID_SRC and the
    handler sends INVALID_DST; for dst = 0x0000 and src = PANU the table
    gives INVALID_DST and the handler sends INVALID_SRC.  The handler
    passes the source role where [chk_role] takes the destination role. *)
Theorem connect_setup_event_roles_exchanged srv s e :
  (setup_request_ok (Some req_nap_zero) = true
   ∧ request_dst (Some req_nap_zero) = BNEP_SVC_NAP
   ∧ request_src (Some req_nap_zero) = 0
   ∧ chk_role BNEP_SVC_NAP 0 = BNEP_CONN_INVALID_SRC
   ∧ (connect_setup_event srv s G_IO_IN (Some req_nap_zero) e).2
     = [Send (nsk s) [BNEP_CONTROL; BNEP_SETUP_CONN_RSP; 0;
                      BNEP_CONN_INVALID_DST]])
  ∧ (setup_request_ok (Some req_zero_panu) = true
     ∧ request_dst (Some req_zero_panu) = 0
     ∧ request_src (Some req_zero_panu) = BNEP_SVC_PANU
     ∧ chk_role 0 BNEP_SVC_PANU = BNEP_CONN_INVALID_DST
     ∧ (connect_setup_event srv s G_IO_IN (Some req_zero_panu) e).2
       = [Send (nsk s) [BNEP_CONTROL; BNEP_SETUP_CONN_RSP; 0;
                        BNEP_CONN_INVALID_SRC]]).
Proof.
  split; (split_and!; [reflexivity..|]);
    rewrite connect_setup_event_role_reject
      by (reflexivity || (vm_compute; intros [=]));
    reflexivity.
Qed.

(** C3: a packet whose uuid_size is not 2, or whose length is not the
    header size plus twice uuid_size, is answered with INVALID_SVC and the
    session is destroyed; no call to the authorization service is made and
    none is left pending by it.  The role fields play no part, so a
    request with dst = PANU, src = NAP and uuid_size = 4 gets INVALID_SVC
    as well. *)
Theorem invalid_size_rejected st data s cond dgram e :
  reachable st →
  g_slist_find (setup_sessions st) data = Some s →
  readable cond = true →
  byte_at (recv dgram).2 2 ≠ 2
  ∨ (recv dgram).1 ≠ sizeof_setup_conn_req + 2 * byte_at (recv dgram).2 2 →
  let r := step st (SetupIO data cond dgram e) in
  r.2 = [Send (nsk s) [BNEP_CONTROL; BNEP_SETUP_CONN_RSP; 0;
                       BNEP_CONN_INVALID_SVC];
         SetupFree data]
  ∧ g_slist_find (setup_sessions r.1) data = None
  ∧ pending_calls r.1 = pending_calls st.
Proof.
  intros Hst%reachable_inv Hfind Hcond Hsz r. subst r.
  erewrite step_setup_io_drop
    by eauto using connect_setup_event_invalid_size.
  simpl. split_and!; [done| |done]. by apply destroyed_not_found.
Qed.

Lemma invalid_size_rejected_witness :
  let r := step st_connected (SetupIO 1 G_IO_IN (Some req_uuid32) env_ok) in
  byte_at (recv (Some req_uuid32)).2 2 = 4
  ∧ r.2 = [Send 5 [1; 2; 0; 3]; SetupFree 1]
  ∧ g_slist_find (setup_sessions r.1) 1 = None
  ∧ pending_calls r.1 = pending_calls st_connected.
Proof.
  split; [reflexivity|].
  apply (invalid_size_rejected st_connected 1%nat session0 G_IO_IN
           (Some req_uuid32) env_ok).
  - apply st_connected_reachable.
  - reflexivity.
  - reflexivity.
  - left. vm_compute. discriminate.
Defined.

(** *** Retransmission *)

Lemma authorize_connection_sent s e :
  new_method_call e = true → send_with_reply e = true →
  authorize_connection s e
  = (0, [RequestAuthorization (ptr s) (address s) (dst_role s)]).
Proof. intros H1 H2. unfold authorize_connection. by rewrite H1, H2. Qed.

(** One valid request below the bound: the call goes out, the counter
    advances and the session stays. *)
Lemma valid_request_passes st data s ev :
  reachable st →
  g_slist_find (setup_sessions st) data = Some s →
  valid_request (servers st) data ev = true →
  bus_accepts ev = true →
  attempts s < MAX_SETUP_ATTEMPTS →
  ∃ s',
    (step st ev).2 = [RequestAuthorization data (address s) (event_dst ev)]
    ∧ g_slist_find (setup_sessions (step st ev).1) data = Some s'
    ∧ attempts s' = attempts s + 1
    ∧ address s' = address s ∧ nsk s' = nsk s
    ∧ servers (step st ev).1 = servers st
    ∧ pending_calls (step st ev).1 = pending_calls st ++ [data].
Proof.
  intros Hst Hfind Hv Hbus Hlt.
  destruct ev as [|d cond dgram e| | | | | | |]; try done.
  simpl in Hv, Hbus.
  apply andb_true_iff in Hv as [[->%Nat.eqb_eq Hc]%andb_true_iff Hv].
  apply andb_true_iff in Hbus as [Hm Hs].
  pose proof (connect_setup_event_valid (servers st) s cond dgram e Hc Hv)
    as Hev.
  cbv zeta in Hev. rewrite authorize_connection_sent in Hev by done.
  destruct (Z.gtb_spec (attempts s + 1) MAX_SETUP_ATTEMPTS) as [|_]; [lia|].
  simpl in Hev.
  pose proof Hfind as [_ Hp]%g_slist_find_Some.
  erewrite step_setup_io_keep by done.
  exists (set_attempts (attempts s + 1)
            (set_timeout 0 (with_roles dgram s))).
  split_and!; try reflexivity.
  simpl. subst data.
  by apply (g_slist_find_store _ s
              (set_attempts (attempts s + 1)
                 (set_timeout 0 (with_roles dgram s)))).
Qed.

(** One valid request beyond the bound: NOT_ALLOWED and teardown, whatever
    the bus would have answered. *)
Lemma valid_request_rejected st data s ev :
  reachable st →
  g_slist_find (setup_sessions st) data = Some s →
  valid_request (servers st) data ev = true →
  MAX_SETUP_ATTEMPTS ≤ attempts s →
  (step st ev).2
  = [Send (nsk s) [BNEP_CONTROL; BNEP_SETUP_CONN_RSP; 0;
                   BNEP_CONN_NOT_ALLOWED];
     SetupFree data]
  ∧ g_slist_find (setup_sessions (step st ev).1) data = None.
Proof.
  intros Hst%reachable_inv Hfind Hv Hge.
  destruct ev as [|d cond dgram e| | | | | | |]; try done.
  simpl in Hv.
  apply andb_true_iff in Hv as [[->%Nat.eqb_eq Hc]%andb_true_iff Hv].
  pose proof (connect_setup_event_valid (servers st) s cond dgram e Hc Hv)
    as Hev.
  cbv zeta in Hev.
  destruct (Z.gtb_spec (attempts s + 1) MAX_SETUP_ATTEMPTS) as [_|]; [|lia].
  erewrite step_setup_io_drop by done. simpl.
  split; [done|]. by apply destroyed_not_found.
Qed.

(** A run of valid requests that stays within the bound. *)
Lemma valid_requests_pass data evs :
  ∀ st s,
    reachable st →
    g_slist_find (setup_sessions st) data = Some s →
    Forall (λ ev, valid_request (servers st) data ev = true
                  ∧ bus_accepts ev = true) evs →
    attempts s + Z.of_nat (length evs) ≤ MAX_SETUP_ATTEMPTS →
    (run st evs).2
    = (λ ev, RequestAuthorization data (address s) (event_dst ev)) <$> evs
    ∧ reachable (run st evs).1
    ∧ servers (run st evs).1 = servers st
    ∧ ∃ s', g_slist_find (setup_sessions (run st evs).1) data = Some s'
            ∧ attempts s' = attempts s + Z.of_nat (length evs)
            ∧ address s' = address s ∧ nsk s' = nsk s.
Proof.
  induction evs as [|ev evs IH]; intros st s Hst Hfind Hall Hle.
  - simpl. split_and!; try done. exists s. split_and!; try done. lia.
  - apply Forall_cons in Hall as [[Hv Hbus] Hall].
    rewrite length_cons in Hle.
    destruct (valid_request_passes st data s ev Hst Hfind Hv Hbus)
      as (s1 & Hout & Hfind1 & Hatt & Haddr & Hnsk & Hsrv & _); [lia|].
    pose proof (reachable_step st ev Hst) as Hst1.
    simpl. destruct (step st ev) as [st1 out1]. simpl in *. subst out1.
    rewrite <- Hsrv in Hall.
    destruct (IH st1 s1 Hst1 Hfind1 Hall) as (Hout & Hr & Hs & s' & Hf & Ha
                                              & Had & Hn); [lia|].
    destruct (run st1 evs) as [st2 out2]. simpl in *. subst out2.
    rewrite Haddr. split_and!; try done; [congruence|].
    exists s'. split_and!; try done; [lia|congruence..].
Qed.

(** C4: with the bound at 3, the counter is advanced and then compared,
    so the first three valid setup requests of a session pass (each one
    puts a RequestAuthorization on the bus and nothing is sent to the
    peer) and leave the counter at 3; the fourth valid request is answered
    with NOT_ALLOWED and the session is destroyed. *)
Theorem fourth_setup_request_rejected st data s evs ev4 :
  reachable st →
  g_slist_find (setup_sessions st) data = Some s →
  attempts s = 0 →
  length evs = 3%nat →
  Forall (λ ev, valid_request (servers st) data ev = true
                ∧ bus_accepts ev = true) evs →
  valid_request (servers st) data ev4 = true →
  let r3 := run st evs in
  let r4 := step r3.1 ev4 in
  MAX_SETUP_ATTEMPTS = 3
  ∧ r3.2 = (λ ev, RequestAuthorization data (address s) (event_dst ev)) <$> evs
  ∧ (∃ s3, g_slist_find (setup_sessions r3.1) data = Some s3
            ∧ attempts s3 = 3)
  ∧ r4.2 = [Send (nsk s) [BNEP_CONTROL; BNEP_SETUP_CONN_RSP; 0;
                          BNEP_CONN_NOT_ALLOWED];
            SetupFree data]
  ∧ g_slist_find (setup_sessions r4.1) data = None.
Proof.
  intros Hst Hfind Hatt Hlen Hall Hv4 r3 r4. subst r3 r4.
  destruct (valid_requests_pass data evs st s Hst Hfind Hall)
    as (Hout & Hr & Hsrv & s3 & Hf3 & Ha3 & Had & Hn);
    [rewrite Hatt, Hlen; unfold MAX_SETUP_ATTEMPTS; lia|].
  rewrite Hatt, Hlen in Ha3. rewrite <- Hsrv in Hv4.
  destruct (valid_request_rejected _ data s3 ev4 Hr Hf3 Hv4) as [Ho4 Hf4];
    [unfold MAX_SETUP_ATTEMPTS; lia|].
  rewrite Hn in Ho4. split_and!; try done. by exists s3.
Qed.

Lemma fourth_setup_request_rejected_witness :
  let r3 := run st_connected [setup_nap; setup_nap; setup_nap] in
  let r4 := step r3.1 setup_nap in
  MAX_SETUP_ATTEMPTS = 3
  ∧ r3.2 = [RequestAuthorization 1 peer0 BNEP_SVC_NAP;
            RequestAuthorization 1 peer0 BNEP_SVC_NAP;
            RequestAuthorization 1 peer0 BNEP_SVC_NAP]
  ∧ (∃ s3, g_slist_find (setup_sessions r3.1) 1 = Some s3 ∧ attempts s3 = 3)
  ∧ r4.2 = [Send 5 [1; 2; 0; 4]; SetupFree 1]
  ∧ g_slist_find (setup_sessions r4.1) 1 = None.
Proof.
  apply (fourth_setup_request_rejected st_connected 1%nat session0
           [setup_nap; setup_nap; setup_nap] setup_nap).
  - apply st_connected_reachable.
  - reflexivity.
  - reflexivity.
  - reflexivity.
  - repeat constructor.
  - reflexivity.
Defined.

(** *** Listener *)

Lemma set_listening_id st : listening st = true → set_listening true st = st.
Proof. destruct st. simpl. by intros ->. Qed.

(** C5: in every reachable state the live sessions have pairwise
    different peer addresses, and a connection accepted from an address
    that has a live session is closed at once: no session is created and
    the state, with the attempts counter, the timer and the pending calls
    of the existing session, stays as it was. *)
Theorem one_session_per_address st :
  reachable st →
  NoDup (address <$> setup_sessions st)
  ∧ ∀ cond nsk peer block,
      listening st = true →
      readable cond = true →
      peer ∈ address <$> setup_sessions st →
      step st (Incoming cond (Some (nsk, peer)) block) = (st, [Close nsk]).
Proof.
  intros Hst%reachable_inv. split; [apply Hst|].
  intros cond nsk peer block Hl [Hn Hh]%readable_spec Hin.
  simpl. rewrite Hl. unfold connect_event. rewrite Hn, Hh.
  destruct (g_slist_find_custom_Some _ _ Hin) as [s' ->].
  by rewrite set_listening_id.
Qed.

Lemma one_session_per_address_witness :
  NoDup (address <$> setup_sessions st_authorizing)
  ∧ peer0 ∈ address <$> setup_sessions st_authorizing
  ∧ step st_authorizing (Incoming G_IO_IN (Some (6, peer0)) 2)
    = (st_authorizing, [Close 6]).
Proof.
  destruct (one_session_per_address st_authorizing) as [Hnd Hdup].
  - apply (reachable_run st_connected [setup_nap]), st_connected_reachable.
  - assert (peer0 ∈ address <$> setup_sessions st_authorizing) as Hin
      by (vm_compute; left).
    split; [exact Hnd|]. split; [exact Hin|].
    apply Hdup; [reflexivity|reflexivity|exact Hin].
Defined.

(** *** Outstanding authorization requests *)

(** An event leaves the session under every pointer other than the one
    it carries as it was. *)
Lemma step_frame st ev q s :
  event_session st ev ≠ Some q →
  g_slist_find (setup_sessions st) q = Some s →
  g_slist_find (setup_sessions (step st ev).1) q = Some s.
Proof.
  intros Hev Hq.
  destruct ev as [cond acc block|data cond dgram e|data|n reply e
                 |role id|role id enabled|role|role adapter rec|role];
    try done.
  - unfold step, connect_event.
    repeat case_match; simplify_eq/=; try done.
    by rewrite g_slist_find_app, Hq.
  - simpl in Hev. assert (q ≠ data) as Hne by congruence.
    unfold step.
    destruct (g_slist_find (setup_sessions st) data) as [s0|] eqn:Hfind;
      [|done].
    destruct (connect_setup_event (servers st) s0 cond dgram e)
      as [[keep s1] out] eqn:Hcse.
    apply connect_setup_event_frame in Hcse as (Hptr & _).
    apply g_slist_find_Some in Hfind as [_ Hd].
    assert (g_slist_find (store s1 (setup_sessions st)) q = Some s) as Hq'.
    { rewrite g_slist_find_store_other by congruence. done. }
    destruct keep; [done|].
    pose proof (setup_watch_destroy_other false
                  (set_pending (pending_calls st ++ new_calls out)
                     (set_sessions (store s1 (setup_sessions st)) st))
                  data q Hne) as Hd'.
    destruct (setup_watch_destroy false _ data) as [st2 out2].
    cbn [fst] in *. by rewrite Hd'.
  - simpl in Hev. assert (q ≠ data) as Hne by congruence.
    unfold step.
    destruct (g_slist_find (setup_sessions st) data) as [s0|] eqn:Hfind;
      [|done].
    destruct (truthy (timeout s0)); [|done]. unfold setup_timeout.
    by rewrite setup_watch_destroy_other.
  - simpl in Hev. unfold step.
    destruct (pending_calls st !! n) as [data|] eqn:Hn; [|done].
    assert (q ≠ data) as Hne by congruence.
    destruct (authorization_callback_servers
                (set_pending (delete n (pending_calls st)) st) data reply e)
      as [m Hm].
    destruct (authorization_callback _ data reply e) as [st1 out1].
    simpl in Hm. subst st1.
    pose proof (setup_watch_destroy_other true
                  (set_servers m
                     (set_pending (delete n (pending_calls st)) st))
                  data q Hne) as H1.
    destruct (setup_watch_destroy true _ data) as [st2 out2].
    cbn [fst setup_sessions set_servers set_pending] in *. congruence.
Qed.









(** *** Replies of the authorization service *)

(** [authorization_callback] on a live session whose server is gone or
    disabled. *)
Lemma authorization_callback_unusable st data s reply e :
  g_slist_find (setup_sessions st) data = Some s →
  server_usable (servers st !! dst_role s) = false →
  authorization_callback st data reply e
  = (st, send_bnep_ctrl_rsp (nsk s) BNEP_CONN_NOT_ALLOWED).
Proof.
  intros Hfind Hsrv. unfold authorization_callback. rewrite Hfind.
  destruct (servers st !! dst_role s) as [ns|]; [|done].
  simpl in Hsrv. by rewrite Hsrv.
Qed.


(** [authorization_callback] on a live session whose server is enabled,
    for an approval. *)
Lemma authorization_callback_approved st data s ns e :
  g_slist_find (setup_sessions st) data = Some s →
  servers st !! dst_role s = Some ns →
  enable ns = true →
  let attached :=
    connadd e
    && match bridge_name e with Some _ => bridge_add e | None => true end in
  let r := authorization_callback st data Approved e in
  filter is_send r.2
  = send_bnep_ctrl_rsp (nsk s)
      (if attached then BNEP_SUCCESS else BNEP_CONN_NOT_ALLOWED)
  ∧ r.1 = (if attached
           then set_servers
                  (<[dst_role s := set_clients (clients ns ++ [address s]) ns]>
                     (servers st)) st
           else st).
Proof.
  intros Hfind Hsrv Hen. unfold authorization_callback.
  rewrite Hfind, Hsrv, Hen. simpl.
  destruct (connadd e), (bridge_name e), (bridge_add e); simpl; done.
Qed.

Lemma st_authorizing_reachable : reachable st_authorizing.
Proof.
  apply (reachable_run st_connected [setup_nap]), st_connected_reachable.
Qed.

Lemma st_disabled_reachable : reachable st_disabled.
Proof.
  apply (reachable_run st_authorizing [ServerDisable BNEP_SVC_NAP]),
    st_authorizing_reachable.
Qed.

(** C2, as the code has it: when the authorization is approved and the
    server of the session's destination role is registered and enabled,
    the handler sends SUCCESS and appends the peer address to the clients
    of that server if [bnep_connadd] succeeds and, where a bridge is
    configured, [bridge_add_interface] succeeds; if one of the two fails
    it sends NOT_ALLOWED and leaves every client list as it was.  What
    [bnep_if_up] returns has no influence.  The session is destroyed
    either way. *)
Theorem admission_result st n data s ns e :
  reachable st →
  pending_calls st !! n = Some data →
  g_slist_find (setup_sessions st) data = Some s →
  servers st !! dst_role s = Some ns →
  enable ns = true →
  let attached :=
    connadd e
    && match bridge_name e with Some _ => bridge_add e | None => true end in
  let r := step st (AuthReply n Approved e) in
  filter is_send r.2
  = [Send (nsk s)
       [BNEP_CONTROL; BNEP_SETUP_CONN_RSP; 0;
        if attached then BNEP_SUCCESS else BNEP_CONN_NOT_ALLOWED]]
  ∧ servers r.1
    = (if attached
       then <[dst_role s := set_clients (clients ns ++ [address s]) ns]>
              (servers st)
       else servers st)
  ∧ g_slist_find (setup_sessions r.1) data = None.
Proof.
  intros Hst%reachable_inv Hn Hfind Hsrv Hen attached r. subst r.
  erewrite step_auth_reply by done. cbv zeta.
  destruct (authorization_callback_approved
              (set_pending (delete n (pending_calls st)) st) data s ns e
              Hfind Hsrv Hen) as [Hout Hstate].
  fold attached in Hout, Hstate. simpl.
  rewrite filter_app, Hout, Hstate. split_and!.
  - by destruct attached.
  - by destruct attached.
  - by apply destroyed_not_found.
Qed.

Lemma admission_result_witness :
  let r := step st_authorizing (AuthReply 0 Approved env_if_up_fails) in
  filter is_send r.2 = [Send 5 [1; 2; 0; 0]]
  ∧ servers r.1
    = <[BNEP_SVC_NAP := set_clients [peer0] nap_server]>
        (servers st_authorizing)
  ∧ g_slist_find (setup_sessions r.1) 1 = None.
Proof.
  apply (admission_result st_authorizing 0%nat 1%nat session1 nap_server
           env_if_up_fails).
  - apply st_authorizing_reachable.
  - reflexivity.
  - reflexivity.
  - reflexivity.
  - reflexivity.
Defined.

(** C2, as stated, fails: the authorization is approved, the NAP server
    is enabled, [bnep_connadd] succeeds, no bridge is configured and
    [bnep_if_up] fails; the handler still sends SUCCESS and records the
    peer. *)
Lemma bring_up_failure_admits :
  let r := step st_authorizing (AuthReply 0 Approved env_if_up_fails) in
  if_up env_if_up_fails = false
  ∧ server_usable (servers st_authorizing !! BNEP_SVC_NAP) = true
  ∧ g_slist_find (setup_sessions st_authorizing) 1 = Some session1
  ∧ pending_calls st_authorizing = [1%nat]
  ∧ r.2 = [ConnAdd 5 BNEP_SVC_NAP; IfUp BNEP_SVC_NAP;
           Send 5 [BNEP_CONTROL; BNEP_SETUP_CONN_RSP; 0; BNEP_SUCCESS];
           SetupFree 1]
  ∧ clients <$> servers r.1 !! BNEP_SVC_NAP = Some [peer0]
  ∧ filter is_send r.2 ≠ send_bnep_ctrl_rsp 5 BNEP_CONN_NOT_ALLOWED
  ∧ servers r.1 ≠ servers st_authorizing.
Proof.
  split_and!; try (vm_compute; reflexivity).
  - vm_compute. intros [=].
  - intros H. apply (f_equal (λ m, clients <$> m !! BNEP_SVC_NAP)) in H.
    vm_compute in H. discriminate.
Qed.




(** C10: when the authorization is approved but the server of the
    session's destination role is no longer registered, or is disabled,
    the handler sends NOT_ALLOWED, leaves every server and so every
    client list as it was, and the session is destroyed. *)
Theorem approval_needs_enabled_server st n data s e :
  reachable st →
  pending_calls st !! n = Some data →
  g_slist_find (setup_sessions st) data = Some s →
  servers st !! dst_role s = None
  ∨ (∃ ns, servers st !! dst_role s = Some ns ∧ enable ns = false) →
  let r := step st (AuthReply n Approved e) in
  r.2 = [Send (nsk s) [BNEP_CONTROL; BNEP_SETUP_CONN_RSP; 0;
                       BNEP_CONN_NOT_ALLOWED];
         SetupFree data]
  ∧ servers r.1 = servers st
  ∧ g_slist_find (setup_sessions r.1) data = None.
Proof.
  intros Hst%reachable_inv Hn Hfind Hsrv r. subst r.
  erewrite step_auth_reply by done. cbv zeta.
  erewrite authorization_callback_unusable; [| done |].
  - simpl. split_and!; try done. by apply destroyed_not_found.
  - simpl. destruct Hsrv as [->|(ns & -> & Hen)]; done.
Qed.

Lemma approval_needs_enabled_server_witness :
  let r := step st_disabled (AuthReply 0 Approved env_ok) in
  (∃ ns, servers st_disabled !! BNEP_SVC_NAP = Some ns ∧ enable ns = false)
  ∧ r.2 = [Send 5 [1; 2; 0; 4]; SetupFree 1]
  ∧ servers r.1 = servers st_disabled
  ∧ g_slist_find (setup_sessions r.1) 1 = None.
Proof.
  assert (∃ ns, servers st_disabled !! dst_role session1 = Some ns
                ∧ enable ns = false) as Hoff.
  { exists (NetworkServer false 0 BNEP_SVC_NAP []). split; reflexivity. }
  split; [exact Hoff|].
  apply (approval_needs_enabled_server st_disabled 0%nat 1%nat session1
           env_ok).
  - apply st_disabled_reachable.
  - reflexivity.
  - reflexivity.
  - right. exact Hoff.
Defined.

(** *** Expiry and hangup *)

(** The handler on a condition that keeps it from reading. *)
Lemma connect_setup_event_not_readable srv s cond dgram e :
  readable cond = false →
  connect_setup_event srv s cond dgram e
  = (false, s,
     if hangup cond && truthy (attempts s)
     then cancel_authorization s e
     else []).
Proof.
  unfold readable, hangup, connect_setup_event.
  destruct (truthy (Z.land cond G_IO_NVAL)); [done|].
  destruct (truthy (Z.land cond (Z.lor G_IO_ERR G_IO_HUP))); [|done].
  by destruct (truthy (attempts s)).
Qed.

Lemma hangup_not_readable cond : hangup cond = true → readable cond = false.
Proof.
  unfold readable, hangup.
  destruct (truthy (Z.land cond G_IO_NVAL)); [done|].
  by destruct (truthy (Z.land cond (Z.lor G_IO_ERR G_IO_HUP))).
Qed.

Lemma cancel_authorization_no_send s e :
  filter is_send (cancel_authorization s e) = [].
Proof. unfold cancel_authorization. by destruct (new_method_call e). Qed.

(** C8, as the code has it: a session that ends by expiry of its timer
    or by a hangup or error on its socket sends nothing to the peer.  When
    the timer of a session that has counted no valid request fires, the
    session is released once and nothing else happens.  A session that
    has counted a request has a call to the authorization service
    unanswered; on a hangup or socket error on such a session the session
    is released, and one CancelAuthorizationRequest is put on the bus
    before that if the message for it can be allocated, none otherwise.
    A hangup on a session that has counted no request cancels nothing.
    On every condition with G_IO_NVAL, G_IO_ERR or G_IO_HUP the session
    is destroyed without a response. *)
Theorem no_response_on_expiry_or_hangup st data s :
  reachable st →
  g_slist_find (setup_sessions st) data = Some s →
  let gone := set_sessions (g_slist_remove (setup_sessions st) data) st in
  g_slist_find (setup_sessions gone) data = None
  ∧ (attempts s = 0 → step st (SetupTimer data) = (gone, [SetupFree data]))
  ∧ (attempts s ≠ 0 → (0 < outstanding st data)%nat)
  ∧ (∀ cond dgram e,
       hangup cond = true →
       step st (SetupIO data cond dgram e)
       = (gone,
          (if negb (attempts s =? 0) && new_method_call e
           then [CancelAuthorizationRequest (address s) (dst_role s)]
           else [])
          ++ [SetupFree data]))
  ∧ (∀ cond dgram e,
       readable cond = false →
       (step st (SetupIO data cond dgram e)).1 = gone
       ∧ filter is_send (step st (SetupIO data cond dgram e)).2 = []).
Proof.
  intros Hst%reachable_inv Hfind gone.
  pose proof (destroyed_not_found st data Hst) as Hgone.
  pose proof Hfind as [Hin Hptr]%g_slist_find_Some.
  split_and!; [done| | | |].
  - intros Hatt. erewrite step_timer by done. unfold truthy.
    by rewrite (proj2 (Z.eqb_neq _ _) (inv_timer st Hst s Hin Hatt)).
  - intros Hatt. destruct (inv_attempts st Hst s Hin) as [Hr Hle].
    rewrite Hptr in Hle. lia.
  - intros cond dgram e Hh.
    erewrite step_setup_io_drop;
      [|done|done|by apply connect_setup_event_not_readable,
                      hangup_not_readable].
    rewrite Hh. unfold cancel_authorization, truthy. cbn [andb].
    by destruct (attempts s =? 0), (new_method_call e).
  - intros cond dgram e Hc.
    erewrite step_setup_io_drop;
      [|done|done|by apply connect_setup_event_not_readable].
    simpl. split; [done|]. rewrite filter_app.
    destruct (hangup cond && truthy (attempts s));
      by rewrite ?cancel_authorization_no_send.
Qed.

Lemma no_response_on_expiry_or_hangup_witness :
  let gone st := set_sessions (g_slist_remove (setup_sessions st) 1) st in
  (attempts session0 = 0
   ∧ step st_connected (SetupTimer 1) = (gone st_connected, [SetupFree 1]))
  ∧ (attempts session1 = 1
     ∧ (0 < outstanding st_authorizing 1)%nat
     ∧ hangup G_IO_HUP = true
     ∧ step st_authorizing (SetupIO 1 G_IO_HUP None env_ok)
       = (gone st_authorizing,
          [CancelAuthorizationRequest peer0 BNEP_SVC_NAP; SetupFree 1])).
Proof.
  split.
  - split; [reflexivity|].
    destruct (no_response_on_expiry_or_hangup st_connected 1%nat session0)
      as (_ & Htimer & _).
    + apply st_connected_reachable.
    + reflexivity.
    + apply Htimer. reflexivity.
  - split; [reflexivity|].
    destruct (no_response_on_expiry_or_hangup st_authorizing 1%nat session1)
      as (_ & _ & Hwait & Hhup & _).
    + apply st_authorizing_reachable.
    + reflexivity.
    + split; [apply Hwait; discriminate|]. split; [reflexivity|].
      apply (Hhup G_IO_HUP None env_ok). reflexivity.
Defined.

(** C8, as stated, fails: the session of [peer0] has a call to the
    authorization service unanswered, its socket hangs up and
    [dbus_message_new_method_call] gives no message; the session is
    released and nothing is cancelled: no CancelAuthorizationRequest goes
    out and the call stays pending. *)
Lemma hangup_without_cancellation :
  let r := step st_authorizing (SetupIO 1 G_IO_HUP None env_no_msg) in
  reachable st_authorizing
  ∧ g_slist_find (setup_sessions st_authorizing) 1 = Some session1
  ∧ pending_calls st_authorizing = [1%nat]
  ∧ hangup G_IO_HUP = true
  ∧ new_method_call env_no_msg = false
  ∧ r.2 = [SetupFree 1]
  ∧ filter is_cancel r.2 = []
  ∧ pending_calls r.1 = [1%nat].
Proof.
  split; [apply st_authorizing_reachable|].
  split_and!; vm_compute; reflexivity.
Qed.

(** ** Further properties of the admission path *)

(** *** Responses *)

Lemma byte_of_small (v : Z) :
  0 ≤ v < 256 → ∃ b : byte, Z.of_N (Byte.to_N b) = v.
Proof.
  intros Hv. destruct (Byte.of_N (Z.to_N v)) as [b|] eqn:Hb.
  - exists b. apply Byte.to_of_N in Hb. lia.
  - apply Byte.of_N_None_iff in Hb. lia.
Qed.

Lemma be16_split (r : Z) :
  0 ≤ r < 65536 →
  0 ≤ Z.land (Z.shiftr r 8) 255 < 256
  ∧ 0 ≤ Z.land r 255 < 256
  ∧ Z.lor (Z.shiftl (Z.land (Z.shiftr r 8) 255) 8) (Z.land r 255) = r.
Proof.
  intros Hr. change 255 with (Z.ones 8). split; [|split].
  - rewrite Z.land_ones by lia. apply Z.mod_pos_bound. lia.
  - rewrite Z.land_ones by lia. apply Z.mod_pos_bound. lia.
  - apply Z.bits_inj'. intros n Hn.
    rewrite Z.lor_spec, Z.land_spec.
    destruct (Z.ltb_spec n 8) as [Hlt|Hge].
    + rewrite Z.shiftl_spec_low, Z.ones_spec_low by lia.
      by rewrite andb_true_r.
    + rewrite Z.shiftl_spec, Z.land_spec, Z.shiftr_spec by lia.
      rewrite (Z.ones_spec_high 8 n), andb_false_r, orb_false_r by lia.
      replace (n - 8 + 8) with n by lia.
      destruct (Z.ltb_spec n 16) as [Hlt|Hge'].
      * rewrite Z.ones_spec_low by lia. by rewrite andb_true_r.
      * rewrite Z.ones_spec_high, andb_false_r by lia.
        symmetry. apply (Z.bits_above_log2 r n); [lia|].
        destruct (Z.eq_dec r 0) as [->|]; [simpl; lia|].
        apply Z.log2_lt_pow2; [lia|].
        apply Z.lt_le_trans with (2 ^ 16); [lia|].
        apply Z.pow_le_mono_r; lia.
Qed.

(** X1: a response code below 2^16 goes out as a four-byte packet whose
    last two bytes, read the way the handler reads a role, give the code
    back. *)
Theorem response_round_trip sk response :
  0 ≤ response < 65536 →
  ∃ hi lo : byte,
    send_bnep_ctrl_rsp sk response
    = [Send sk [BNEP_CONTROL; BNEP_SETUP_CONN_RSP;
                Z.of_N (Byte.to_N hi); Z.of_N (Byte.to_N lo)]]
    ∧ get_be16 [x01; x02; hi; lo] 2 = response.
Proof.
  intros (Hhi & Hlo & Hr)%be16_split.
  destruct (byte_of_small _ Hhi) as [hi Hhi'].
  destruct (byte_of_small _ Hlo) as [lo Hlo'].
  exists hi, lo. unfold send_bnep_ctrl_rsp, get_be16, byte_at. simpl.
  rewrite Hhi', Hlo'. done.
Qed.

Lemma response_round_trip_witness :
  ∃ hi lo : byte,
    send_bnep_ctrl_rsp 5 BNEP_CONN_NOT_ALLOWED
    = [Send 5 [BNEP_CONTROL; BNEP_SETUP_CONN_RSP;
               Z.of_N (Byte.to_N hi); Z.of_N (Byte.to_N lo)]]
    ∧ get_be16 [x01; x02; hi; lo] 2 = BNEP_CONN_NOT_ALLOWED.
Proof.
  apply (response_round_trip 5 BNEP_CONN_NOT_ALLOWED).
  unfold BNEP_CONN_NOT_ALLOWED. lia.
Defined.

Lemma chk_role_sym a b : chk_role a b = 0 ↔ chk_role b a = 0.
Proof.
  unfold chk_role, BNEP_SVC_NAP, BNEP_SVC_GN, BNEP_SVC_PANU,
    BNEP_CONN_INVALID_SRC, BNEP_CONN_INVALID_DST.
  repeat match goal with
         | |- context [?x =? ?y] => destruct (Z.eqb_spec x y)
         end; cbn [orb]; split; intros; try done; lia.
Qed.

Lemma chk_role_codes a b :
  chk_role a b = 0 ∨ chk_role a b = BNEP_CONN_INVALID_SRC
  ∨ chk_role a b = BNEP_CONN_INVALID_DST.
Proof. unfold chk_role. repeat case_match; auto. Qed.

(** X2: for a request that passed the size and type tests the handler
    answers with a role code (INVALID_DST or INVALID_SRC) exactly when the
    role table, asked with the destination role first, rejects the pair:
    the set of accepted pairs is symmetric, so the order of the arguments
    at the call does not change who is let through. *)
Theorem role_rejection_follows_table srv s cond dgram e :
  readable cond = true →
  setup_request_ok dgram = true →
  let out := (connect_setup_event srv s cond dgram e).2 in
  (out = send_bnep_ctrl_rsp (nsk s) BNEP_CONN_INVALID_DST
   ∨ out = send_bnep_ctrl_rsp (nsk s) BNEP_CONN_INVALID_SRC)
  ↔ chk_role (request_dst dgram) (request_src dgram) ≠ 0.
Proof.
  intros Hc Hok out. subst out. rewrite chk_role_sym.
  destruct (Z.eq_dec (chk_role (request_src dgram) (request_dst dgram)) 0)
    as [Hz|Hnz].
  - rewrite connect_setup_event_well_formed by done. cbv zeta.
    unfold truthy. rewrite Hz. cbn [Z.eqb negb].
    unfold authorize_connection.
    split; [|done]. intros H. exfalso.
    repeat case_match; simplify_eq/=; destruct H as [H|H];
      by vm_compute in H.
  - rewrite connect_setup_event_role_reject by done. split; [done|].
    intros _. cbn [snd].
    destruct (chk_role_codes (request_src dgram) (request_dst dgram))
      as [?|[->| ->]]; [done|by right|by left].
Qed.

Lemma size_test_passed dgram :
  byte_at (recv dgram).2 2 = 2 →
  (recv dgram).1 = sizeof_setup_conn_req + 2 * 2 →
  negb (byte_at (recv dgram).2 2 =? 2)
  || negb (to_size_t (recv dgram).1
           =? sizeof_setup_conn_req + byte_at (recv dgram).2 2 * 2) = false.
Proof.
  intros -> ->. reflexivity.
Qed.

(** X3: a packet of the right size that is not a setup request (wrong
    type or wrong control code) gets no answer: the session is released
    and nothing is sent. *)
Theorem foreign_packet_dropped st data s cond dgram e :
  reachable st →
  g_slist_find (setup_sessions st) data = Some s →
  readable cond = true →
  byte_at (recv dgram).2 2 = 2 →
  (recv dgram).1 = sizeof_setup_conn_req + 2 * 2 →
  byte_at (recv dgram).2 0 ≠ BNEP_CONTROL
  ∨ byte_at (recv dgram).2 1 ≠ BNEP_SETUP_CONN_REQ →
  step st (SetupIO data cond dgram e)
  = (set_sessions (g_slist_remove (setup_sessions st) data) st,
     [SetupFree data]).
Proof.
  intros Hst%reachable_inv Hfind [Hn Hh]%readable_spec Hu Hr Hty.
  erewrite step_setup_io_drop with (out := []); [done..|].
  unfold connect_setup_event. rewrite Hn, Hh.
  pose proof (size_test_passed dgram Hu Hr) as Hsz.
  destruct (recv dgram) as [r pkt]. cbn [fst snd] in *. rewrite Hsz.
  assert (negb (byte_at pkt 0 =? BNEP_CONTROL)
          || negb (byte_at pkt 1 =? BNEP_SETUP_CONN_REQ) = true) as ->; [|done].
  apply orb_true_iff. rewrite !negb_true_iff, !Z.eqb_neq. done.
Qed.

(** X4: a well-formed request with acceptable roles for a destination
    role whose server is not registered or not enabled is answered with
    NOT_ALLOWED; the session is released, nothing is asked of the
    authorization service and the rest of the state is as before. *)
Theorem setup_needs_enabled_server st data s cond dgram e :
  reachable st →
  g_slist_find (setup_sessions st) data = Some s →
  readable cond = true →
  setup_request_ok dgram = true →
  chk_role (request_src dgram) (request_dst dgram) = 0 →
  server_usable (servers st !! request_dst dgram) = false →
  step st (SetupIO data cond dgram e)
  = (set_sessions (g_slist_remove (setup_sessions st) data) st,
     [Send (nsk s) [BNEP_CONTROL; BNEP_SETUP_CONN_RSP; 0;
                    BNEP_CONN_NOT_ALLOWED];
      SetupFree data]).
Proof.
  intros Hst%reachable_inv Hfind Hc Hok Hrole Hsrv.
  pose proof (connect_setup_event_well_formed (servers st) s cond dgram e
                Hc Hok) as Hev.
  cbv zeta in Hev. unfold truthy in Hev. rewrite Hrole, Hsrv in Hev.
  cbn [Z.eqb negb] in Hev.
  by erewrite step_setup_io_drop by done.
Qed.

(** X5: when the RequestAuthorization call of a valid request cannot be
    put on the bus (no message, or the send fails), the request is
    answered with NOT_ALLOWED and the session is released.  The pending
    calls are as before: none is added, and the calls the session issued
    for earlier requests stay pending. *)
Theorem bus_failure_rejects st data s ev :
  reachable st →
  g_slist_find (setup_sessions st) data = Some s →
  valid_request (servers st) data ev = true →
  bus_accepts ev = false →
  step st ev
  = (set_sessions (g_slist_remove (setup_sessions st) data) st,
     [Send (nsk s) [BNEP_CONTROL; BNEP_SETUP_CONN_RSP; 0;
                    BNEP_CONN_NOT_ALLOWED];
      SetupFree data]).
Proof.
  intros Hst%reachable_inv Hfind Hv Hbus.
  destruct ev as [|d cond dgram e| | | | | | |]; try done.
  simpl in Hv, Hbus.
  apply andb_true_iff in Hv as [[->%Nat.eqb_eq Hc]%andb_true_iff Hv].
  pose proof (connect_setup_event_valid (servers st) s cond dgram e Hc Hv)
    as Hev.
  cbv zeta in Hev. unfold authorize_connection in Hev.
  destruct (attempts s + 1 >? MAX_SETUP_ATTEMPTS);
    [by erewrite step_setup_io_drop by done|].
  destruct (new_method_call e); simpl in Hbus;
    [rewrite Hbus in Hev|]; simpl in Hev;
    by erewrite step_setup_io_drop by done.
Qed.

(** X6: a reply whose call carries a pointer that no live session has
    is dropped: the call leaves the pending list and nothing else
    changes, whatever the reply says.  The test is on the pointer alone;
    what a reply does once the block of the session that issued the call
    belongs to another session is X28. *)
Theorem late_reply_ignored st n data reply e :
  pending_calls st !! n = Some data →
  g_slist_find (setup_sessions st) data = None →
  step st (AuthReply n reply e)
  = (set_pending (delete n (pending_calls st)) st, []).
Proof.
  intros Hn Hfind. unfold step. rewrite Hn.
  unfold authorization_callback, setup_watch_destroy.
  cbn [setup_sessions set_pending]. rewrite Hfind.
  cbn [setup_sessions set_pending]. by rewrite Hfind.
Qed.

(** *** One response per session *)

Lemma connect_setup_event_sends srv s cond dgram e keep s1 out :
  connect_setup_event srv s cond dgram e = (keep, s1, out) →
  filter is_send out = []
  ∨ keep = false
    ∧ ∃ code, filter is_send out = send_bnep_ctrl_rsp (nsk s) code.
Proof.
  unfold connect_setup_event, authorize_connection, cancel_authorization.
  destruct (recv dgram) as [r pkt].
  repeat case_match; simplify_eq/=; intros; simplify_eq/=; eauto.
Qed.

Lemma authorization_callback_sends st data s reply e :
  g_slist_find (setup_sessions st) data = Some s →
  ∃ code,
    filter is_send (authorization_callback st data reply e).2
    = send_bnep_ctrl_rsp (nsk s) code.
Proof.
  intros Hfind. unfold authorization_callback, cancel_authorization.
  rewrite Hfind. repeat case_match; simpl; eauto.
Qed.

(** X7: one dispatch sends at most one response, always on the socket of
    the live session whose pointer the event carries, and the session
    under that pointer is gone when the dispatch ends; a live session
    therefore never sends a second response.  For a reply the pointer is
    the one stored in the call, and the session under it need not be the
    one that issued the call. *)
Theorem response_ends_session st ev :
  reachable st →
  filter is_send (step st ev).2 = []
  ∨ ∃ s code,
      s ∈ setup_sessions st
      ∧ event_session st ev = Some (ptr s)
      ∧ filter is_send (step st ev).2 = send_bnep_ctrl_rsp (nsk s) code
      ∧ g_slist_find (setup_sessions (step st ev).1) (ptr s) = None.
Proof.
  intros Hst%reachable_inv.
  destruct ev as [cond acc block|data cond dgram e|data|n reply e
                 |role id|role id enabled|role|role adapter rec|role];
    try (by left).
  - left. unfold step, connect_event. repeat case_match; simplify_eq/=; done.
  - destruct (g_slist_find (setup_sessions st) data) as [s|] eqn:Hfind;
      [|left; unfold step; by rewrite Hfind].
    pose proof Hfind as [Hin <-]%g_slist_find_Some.
    destruct (connect_setup_event (servers st) s cond dgram e)
      as [[keep s1] out] eqn:Hev.
    destruct (connect_setup_event_sends _ _ _ _ _ _ _ _ Hev)
      as [Hno|[-> [code Hcode]]].
    + left. destruct keep.
      * by erewrite step_setup_io_keep by done.
      * erewrite step_setup_io_drop by done. cbn [snd].
        by rewrite filter_app, Hno.
    + right. exists s, code. erewrite step_setup_io_drop by done.
      cbn [fst snd setup_sessions set_sessions].
      rewrite filter_app, Hcode. split_and!; try done.
      by apply destroyed_not_found.
  - left. unfold step.
    destruct (g_slist_find (setup_sessions st) data) as [s|]; [|done].
    destruct (truthy (timeout s)); [|done].
    apply setup_watch_destroy_no_send.
  - destruct (pending_calls st !! n) as [data|] eqn:Hn;
      [|left; unfold step; by rewrite Hn].
    destruct (g_slist_find (setup_sessions st) data) as [s|] eqn:Hfind.
    + right. pose proof Hfind as [Hin <-]%g_slist_find_Some.
      destruct (authorization_callback_sends
                  (set_pending (delete n (pending_calls st)) st)
                  (ptr s) s reply e Hfind) as [code Hcode].
      exists s, code. erewrite step_auth_reply by done. cbv zeta.
      cbn [fst snd]. rewrite filter_app, Hcode.
      destruct (authorization_callback_servers
                  (set_pending (delete n (pending_calls st)) st)
                  (ptr s) reply e) as [m ->].
      split_and!; try done. by apply destroyed_not_found.
    + left. by erewrite step_auth_reply_gone by done.
Qed.

(** *** Client lists *)





(** *** Sessions that wait for a reply *)

Lemma connect_setup_event_kept srv s cond dgram e s1 out :
  connect_setup_event srv s cond dgram e = (true, s1, out) →
  timeout s1 = 0 ∧ chk_role (src_role s1) (dst_role s1) = 0.
Proof.
  unfold connect_setup_event, authorize_connection.
  destruct (recv dgram) as [r pkt].
  repeat case_match; simplify_eq/=; intros; simplify_eq/=.
  split; [done|].
  match goal with H : truthy (chk_role _ _) = false |- _ =>
    unfold truthy in H; apply negb_false_iff, Z.eqb_eq in H; exact H end.
Qed.

(** Where the sessions of the next state come from. *)
Lemma step_sessions st ev x :
  inv st →
  x ∈ setup_sessions (step st ev).1 →
  x ∈ setup_sessions st
  ∨ attempts x = 0
  ∨ attempts x ≠ 0 ∧ timeout x = 0
    ∧ chk_role (src_role x) (dst_role x) = 0.
Proof.
  intros Hinv.
  destruct ev as [cond acc block|data cond dgram e|data|n reply e
                 |role id|role id enabled|role|role adapter rec|role];
    try (by left).
  - unfold step, connect_event.
    repeat case_match; simplify_eq/=; auto.
    intros [?| ->%list_elem_of_singleton]%elem_of_app; auto.
  - destruct (g_slist_find (setup_sessions st) data) as [s|] eqn:Hfind;
      [|unfold step; rewrite Hfind; auto].
    destruct (connect_setup_event (servers st) s cond dgram e)
      as [[[] s1] out] eqn:Hev.
    + erewrite step_setup_io_keep by done. simpl.
      intros [->|[? _]]%elem_of_store; [|auto].
      pose proof Hev as [Ht Hr]%connect_setup_event_kept.
      apply connect_setup_event_frame in Hev as (_ & _ & _ & Ha & _).
      apply g_slist_find_Some in Hfind as [Hin _].
      destruct (inv_attempts st Hinv s Hin) as [? _].
      right. right. split_and!; [lia|done..].
    + erewrite step_setup_io_drop by done. simpl. intros H. left.
      eapply elem_of_sublist; [exact H|apply g_slist_remove_sublist].
  - unfold step.
    destruct (g_slist_find (setup_sessions st) data) as [s|]; [|auto].
    destruct (truthy (timeout s)); [|auto]. unfold setup_timeout.
    pose proof (setup_watch_destroy_sessions true st data x). auto.
  - unfold step. destruct (pending_calls st !! n) as [data|]; [|auto].
    destruct (authorization_callback_servers
                (set_pending (delete n (pending_calls st)) st) data reply e)
      as [m Hm].
    destruct (authorization_callback _ data reply e) as [st1 out1].
    simpl in Hm. subst st1.
    pose proof (setup_watch_destroy_sessions true
                  (set_servers m
                     (set_pending (delete n (pending_calls st)) st))
                  data x) as H1.
    destruct (setup_watch_destroy true _ data) as [st2 out2]. auto.
Qed.

Lemma reachable_inv_wait st : reachable st → inv_wait st.
Proof.
  induction 1 as [|st ev Hst IH].
  - split; simpl; by intros ? ?%elem_of_nil.
  - apply reachable_inv in Hst. destruct IH as [Ht Hr].
    split; intros x Hx Hatt;
      destruct (step_sessions st ev x Hst Hx) as [?|[?|(_ & ? & ?)]];
      auto; done.
Qed.

(** X9: the setup timer cannot end a session that has counted a valid
    request and waits for the authorization service: its timer was
    removed when the request was counted, a call that carries the session
    is pending, and the timer event changes nothing. *)
Theorem timer_off_while_waiting st s :
  reachable st →
  s ∈ setup_sessions st →
  attempts s ≠ 0 →
  (0 < outstanding st (ptr s))%nat
  ∧ step st (SetupTimer (ptr s)) = (st, []).
Proof.
  intros Hst Hin Hatt. pose proof (reachable_inv st Hst) as Hinv.
  split.
  - destruct (inv_attempts st Hinv s Hin). lia.
  - assert (g_slist_find (setup_sessions st) (ptr s) = Some s) as Hfind.
    { destruct (g_slist_find (setup_sessions st) (ptr s)) as [x|] eqn:Hf.
      - apply g_slist_find_Some in Hf as [Hx Hp]. f_equal.
        by apply (ptr_inj (setup_sessions st)); [apply Hinv|..].
      - apply g_slist_find_None in Hf. destruct Hf.
        by apply list_elem_of_fmap_2. }
    erewrite step_timer by done.
    by rewrite (wait_timer st (reachable_inv_wait st Hst) s Hin).
Qed.

Lemma timer_off_while_waiting_witness :
  (0 < outstanding st_authorizing (ptr session1))%nat
  ∧ step st_authorizing (SetupTimer (ptr session1)) = (st_authorizing, []).
Proof.
  apply (timer_off_while_waiting st_authorizing session1).
  - apply st_authorizing_reachable.
  - vm_compute. left.
  - vm_compute. discriminate.
Defined.

(** X10: a live session that has counted a request holds a pair of
    roles the table accepts; both are PAN roles. *)
Theorem waiting_roles_accepted st s :
  reachable st →
  s ∈ setup_sessions st →
  attempts s ≠ 0 →
  chk_role (dst_role s) (src_role s) = 0
  ∧ (dst_role s = BNEP_SVC_NAP ∨ dst_role s = BNEP_SVC_GN
     ∨ dst_role s = BNEP_SVC_PANU)
  ∧ (src_role s = BNEP_SVC_NAP ∨ src_role s = BNEP_SVC_GN
     ∨ src_role s = BNEP_SVC_PANU).
Proof.
  intros Hst Hin Hatt.
  pose proof (wait_roles st (reachable_inv_wait st Hst) s Hin Hatt) as Hr.
  split; [by apply chk_role_sym|].
  revert Hr. unfold chk_role, BNEP_SVC_NAP, BNEP_SVC_GN, BNEP_SVC_PANU,
    BNEP_CONN_INVALID_SRC, BNEP_CONN_INVALID_DST.
  repeat match goal with
         | |- context [?a =? ?b] => destruct (Z.eqb_spec a b)
         end; cbn [orb]; intros; try done; auto.
Qed.

Lemma waiting_roles_accepted_witness :
  chk_role (dst_role session1) (src_role session1) = 0
  ∧ (dst_role session1 = BNEP_SVC_NAP ∨ dst_role session1 = BNEP_SVC_GN
     ∨ dst_role session1 = BNEP_SVC_PANU)
  ∧ (src_role session1 = BNEP_SVC_NAP ∨ src_role session1 = BNEP_SVC_GN
     ∨ src_role session1 = BNEP_SVC_PANU).
Proof.
  apply (waiting_roles_accepted st_authorizing session1).
  - apply st_authorizing_reachable.
  - vm_compute. left.
  - vm_compute. discriminate.
Defined.

(** *** New connections and other sessions *)

(** X11: a connection accepted from an address without a live session
    adds one session at the end of the list, with no attempt counted and
    the timer set, under a block that no live session has: the block the
    allocator chose, which can be one released earlier that a pending
    call still carries.  Nothing is sent, and servers and pending calls
    stay as they were. *)
Theorem new_connection_creates_session st cond nsk peer block :
  reachable st →
  listening st = true →
  readable cond = true →
  peer ∉ address <$> setup_sessions st →
  let r := step st (Incoming cond (Some (nsk, peer)) block) in
  let s := SetupSession (g_new0 st block) peer 0 0 nsk 0 (next_source st)
             (next_source st + 1) in
  r.2 = []
  ∧ setup_sessions r.1 = setup_sessions st ++ [s]
  ∧ g_slist_find (setup_sessions st) (ptr s) = None
  ∧ g_slist_find (setup_sessions r.1) (ptr s) = Some s
  ∧ (g_slist_find (setup_sessions st) block = None → ptr s = block)
  ∧ timeout s ≠ 0
  ∧ servers r.1 = servers st
  ∧ pending_calls r.1 = pending_calls st.
Proof.
  intros Hst%reachable_inv Hl [Hn Hh]%readable_spec Hnew r s. subst r.
  unfold step, connect_event. rewrite Hl, Hn, Hh.
  rewrite (g_slist_find_custom_absent _ _ Hnew). cbn [fst snd].
  pose proof (g_new0_not_live st block Hst) as Hfresh.
  split_and!; try done.
  - simpl. rewrite g_slist_find_app, Hfresh. simpl.
    by rewrite Nat.eqb_refl.
  - intros Hb. simpl. unfold g_new0. by rewrite Hb.
  - simpl. pose proof (inv_source st Hst). lia.
Qed.

Lemma new_connection_creates_session_witness :
  let r := step st_hungup (Incoming G_IO_IN (Some (6, peer1)) 1) in
  let s := session3 in
  r.2 = []
  ∧ setup_sessions r.1 = setup_sessions st_hungup ++ [s]
  ∧ g_slist_find (setup_sessions st_hungup) 1 = None
  ∧ g_slist_find (setup_sessions r.1) 1 = Some s
  ∧ (g_slist_find (setup_sessions st_hungup) 1 = None → ptr s = 1%nat)
  ∧ timeout s ≠ 0
  ∧ servers r.1 = servers st_hungup
  ∧ pending_calls r.1 = pending_calls st_hungup.
Proof.
  apply (new_connection_creates_session st_hungup G_IO_IN 6 peer1 1).
  - apply (reachable_run st_authorizing [SetupIO 1 G_IO_HUP None env_ok]),
      st_authorizing_reachable.
  - reflexivity.
  - reflexivity.
  - vm_compute. intros H. by apply elem_of_nil in H.
Defined.

(** X12: an event leaves the session under every pointer other than the
    one it carries, as the user data of the watch, of the timer or of the
    completed call, exactly as it was.  The pointer of a completed call
    is the block of the session that issued it, so the session an event
    acts on need not be the one that asked. *)
Theorem other_sessions_untouched st ev q s :
  event_session st ev ≠ Some q →
  g_slist_find (setup_sessions st) q = Some s →
  g_slist_find (setup_sessions (step st ev).1) q = Some s.
Proof. apply step_frame. Qed.

(** *** From the connection to the recorded client *)

Lemma step_incoming_new st cond nsk peer block :
  listening st = true →
  readable cond = true →
  peer ∉ address <$> setup_sessions st →
  step st (Incoming cond (Some (nsk, peer)) block)
  = (State
       (setup_sessions st
        ++ [SetupSession (g_new0 st block) peer 0 0 nsk 0 (next_source st)
              (next_source st + 1)])
       (servers st) (pending_calls st) true
       (Nat.max (next_ptr st) (S (g_new0 st block)))
       (next_source st + 2), []).
Proof.
  intros Hl [Hn Hh]%readable_spec Hnew.
  unfold step, connect_event. rewrite Hl, Hn, Hh.
  by rewrite (g_slist_find_custom_absent _ _ Hnew).
Qed.

(** X13: connection, valid request and approval in a row: a peer
    without a live session connects, sends a valid request that the bus
    takes, and the approval arrives while the interface can be attached.
    One call was made, SUCCESS is the only response, the peer is appended
    to the clients of the destination role, and sessions and pending calls
    are back to what they were.  This holds whichever block the session
    is given. *)
Theorem admission_end_to_end st c1 c2 nsk peer block dgram e1 e2 ns :
  reachable st →
  listening st = true →
  readable c1 = true →
  readable c2 = true →
  peer ∉ address <$> setup_sessions st →
  valid_setup (servers st) dgram = true →
  servers st !! request_dst dgram = Some ns →
  new_method_call e1 = true →
  send_with_reply e1 = true →
  connadd e2
  && match bridge_name e2 with Some _ => bridge_add e2 | None => true end
  = true →
  let p := g_new0 st block in
  let r := run st [Incoming c1 (Some (nsk, peer)) block;
                   SetupIO p c2 dgram e1;
                   AuthReply (length (pending_calls st)) Approved e2] in
  filter is_send r.2
  = [Send nsk [BNEP_CONTROL; BNEP_SETUP_CONN_RSP; 0; BNEP_SUCCESS]]
  ∧ new_calls r.2 = [p]
  ∧ setup_sessions r.1 = setup_sessions st
  ∧ pending_calls r.1 = pending_calls st
  ∧ servers r.1
    = <[request_dst dgram := set_clients (clients ns ++ [peer]) ns]>
        (servers st).
Proof.
  intros Hst Hl Hc1 Hc2 Hnew Hv Hns Hm Hs Hatt p r. subst r.
  pose proof (reachable_inv st Hst) as Hinv.
  pose (s0 := SetupSession p peer 0 0 nsk 0 (next_source st)
                (next_source st + 1)).
  pose (s2 := set_attempts 1 (set_timeout 0 (with_roles dgram s0))).
  pose (st1 := State (setup_sessions st ++ [s0]) (servers st)
                 (pending_calls st) true (Nat.max (next_ptr st) (S p))
                 (next_source st + 2)).
  pose (st2 := set_pending (pending_calls st ++ [p])
                 (set_sessions (store s2 (setup_sessions st ++ [s0])) st1)).
  (* first event *)
  assert (step st (Incoming c1 (Some (nsk, peer)) block) = (st1, [])) as H1
    by (by apply step_incoming_new).
  assert (reachable st1) as Hr1.
  { pose proof (reachable_step st (Incoming c1 (Some (nsk, peer)) block) Hst)
      as H.
    by rewrite H1 in H. }
  assert (p ∉ ptr <$> setup_sessions st) as Hfresh
    by apply g_slist_find_None, g_new0_not_live, Hinv.
  assert (g_slist_find (setup_sessions st1) p = Some s0) as Hf1.
  { simpl. rewrite g_slist_find_app.
    rewrite (proj2 (g_slist_find_None _ _) Hfresh). simpl.
    by rewrite Nat.eqb_refl. }
  (* second event *)
  assert (step st1 (SetupIO p c2 dgram e1)
          = (st2, [RequestAuthorization p peer (request_dst dgram)])) as H2.
  { pose proof (connect_setup_event_valid (servers st1) s0 c2 dgram e1
                  Hc2 Hv) as Hev.
    cbv zeta in Hev. rewrite authorize_connection_sent in Hev by done.
    cbn in Hev.
    by rewrite (step_setup_io_keep st1 p c2 dgram e1 s0 _ _ Hf1 Hev). }
  assert (reachable st2) as Hr2.
  { pose proof (reachable_step st1 (SetupIO p c2 dgram e1) Hr1) as H.
    by rewrite H2 in H. }
  (* third event *)
  assert (pending_calls st2 !! length (pending_calls st) = Some p) as Hn3
    by (by apply list_lookup_middle).
  assert (g_slist_find (setup_sessions st2) p = Some s2) as Hf2
    by (by apply (g_slist_find_store _ s0 s2)).
  assert (enable ns = true) as Hen.
  { apply andb_true_iff in Hv as [_ Hu]. by rewrite Hns in Hu. }
  pose proof (step_auth_reply st2 _ _ s2 Approved e2
                (reachable_inv _ Hr2) Hn3 Hf2) as H3.
  cbv zeta in H3.
  destruct (authorization_callback_approved
              (set_pending (delete (length (pending_calls st))
                              (pending_calls st2)) st2)
              p s2 ns e2) as [Hout Hstate]; [done..|].
  rewrite Hatt in Hout, Hstate.
  cbn [run]. rewrite H1. cbv beta iota. rewrite H2. cbv beta iota.
  rewrite H3. cbv beta iota. cbn [fst snd].
  rewrite Hstate. rewrite !filter_app, Hout. split_and!.
  - done.
  - unfold new_calls. rewrite !flat_map_app.
    fold (new_calls
            (authorization_callback
               (set_pending (delete (length (pending_calls st))
                               (pending_calls st2)) st2)
               p Approved e2).2).
    by rewrite authorization_callback_no_calls.
  - cbn [setup_sessions set_sessions set_servers set_pending st2 st1].
    change p with (ptr s2) at 1.
    rewrite g_slist_remove_store.
    + by apply (g_slist_remove_last _ s0).
    + apply (inv_ptr_nodup st1 (reachable_inv _ Hr1)).
  - cbn [pending_calls set_sessions set_servers set_pending st2].
    by rewrite delete_middle, app_nil_r.
  - done.
Qed.

Lemma admission_end_to_end_witness :
  let r := run st_enabled [Incoming G_IO_IN (Some (5, peer0)) 1;
                           SetupIO 1 G_IO_IN (Some req_nap_panu) env_ok;
                           AuthReply 0 Approved env_ok] in
  filter is_send r.2 = [Send 5 [1; 2; 0; 0]]
  ∧ new_calls r.2 = [1%nat]
  ∧ setup_sessions r.1 = []
  ∧ pending_calls r.1 = []
  ∧ servers r.1
    = <[BNEP_SVC_NAP := set_clients [peer0] nap_server]> (servers st_enabled).
Proof.
  apply (admission_end_to_end st_enabled G_IO_IN G_IO_IN 5 peer0 1
           (Some req_nap_panu) env_ok env_ok nap_server).
  - apply (reachable_run initial_state
             [ServerRegister BNEP_SVC_NAP BNEP_SVC_NAP;
              ServerEnable BNEP_SVC_NAP true 0x10000]), reachable_init.
  - reflexivity.
  - reflexivity.
  - reflexivity.
  - vm_compute. intros H. by apply elem_of_nil in H.
  - vm_compute. reflexivity.
  - vm_compute. reflexivity.
  - reflexivity.
  - reflexivity.
  - reflexivity.
Defined.

(** *** A reply after the block of its session was given out again *)

(** X28: the reply to a call of a session that is gone is not always
    dropped.  A session with a call pending ends by a hangup or an error
    on its socket, and the next connection is given its block.  The call
    is still pending and carries that block, so the reply finds the new
    session: the new peer, which has sent no request, is answered with
    NOT_ALLOWED on its socket and its session is released. *)
Theorem stale_reply_ends_new_session st n p s c1 d1 e1 c2 nsk peer reply e :
  reachable st →
  listening st = true →
  pending_calls st !! n = Some p →
  g_slist_find (setup_sessions st) p = Some s →
  readable c1 = false →
  readable c2 = true →
  peer ∉ address <$> g_slist_remove (setup_sessions st) p →
  servers st !! 0 = None →
  let st2 :=
    (run st [SetupIO p c1 d1 e1; Incoming c2 (Some (nsk, peer)) p]).1 in
  let s2 :=
    SetupSession p peer 0 0 nsk 0 (next_source st) (next_source st + 1) in
  g_slist_find (setup_sessions st2) p = Some s2
  ∧ pending_calls st2 = pending_calls st
  ∧ step st2 (AuthReply n reply e)
    = (set_sessions (g_slist_remove (setup_sessions st2) p)
         (set_pending (delete n (pending_calls st)) st2),
       [Send nsk [BNEP_CONTROL; BNEP_SETUP_CONN_RSP; 0;
                  BNEP_CONN_NOT_ALLOWED];
        SetupFree p]).
Proof.
  intros Hst Hl Hn Hfind Hc1 Hc2 Hnew Hsrv st2 s2.
  pose proof (reachable_inv st Hst) as Hinv.
  pose (st1 := set_sessions (g_slist_remove (setup_sessions st) p) st).
  assert (∃ out1, step st (SetupIO p c1 d1 e1) = (st1, out1)) as [out1 H1].
  { eexists. eapply step_setup_io_drop; [done..|].
    by apply connect_setup_event_not_readable. }
  assert (g_slist_find (setup_sessions st1) p = None) as Hgone
    by by apply destroyed_not_found.
  assert (g_new0 st1 p = p) as Hblock by (unfold g_new0; by rewrite Hgone).
  pose proof (step_incoming_new st1 c2 nsk peer p Hl Hc2 Hnew) as H2.
  rewrite Hblock in H2.
  assert (st2 = (step st1 (Incoming c2 (Some (nsk, peer)) p)).1) as Hst2.
  { subst st2. cbn [run]. rewrite H1. cbv beta iota.
    by destruct (step st1 (Incoming c2 (Some (nsk, peer)) p)). }
  assert (reachable st2) as Hr2.
  { rewrite Hst2. apply reachable_step.
    pose proof (reachable_step st (SetupIO p c1 d1 e1) Hst) as H.
    by rewrite H1 in H. }
  rewrite H2 in Hst2. cbn [fst] in Hst2.
  assert (g_slist_find (setup_sessions st2) p = Some s2) as Hf2.
  { rewrite Hst2. cbn [setup_sessions]. rewrite g_slist_find_app, Hgone.
    cbn [ptr]. by rewrite Nat.eqb_refl. }
  assert (pending_calls st2 = pending_calls st) as Hp2 by by rewrite Hst2.
  split; [done|]. split; [done|].
  rewrite (step_auth_reply st2 n p s2 reply e (reachable_inv _ Hr2));
    [|by rewrite Hp2|done].
  cbv zeta. rewrite Hp2.
  rewrite (authorization_callback_unusable _ p s2 reply e); [done|done|].
  cbn [dst_role s2 servers set_pending]. rewrite Hst2. cbn [servers st1].
  subst st1. cbn [set_sessions servers]. by rewrite Hsrv.
Qed.

Lemma stale_reply_ends_new_session_witness :
  let s2 :=
    SetupSession 1 peer1 0 0 6 0 (next_source st_authorizing)
      (next_source st_authorizing + 1) in
  g_slist_find (setup_sessions st_reused) 1 = Some s2
  ∧ pending_calls st_reused = pending_calls st_authorizing
  ∧ step st_reused (AuthReply 0 Approved env_ok)
    = (set_sessions (g_slist_remove (setup_sessions st_reused) 1)
         (set_pending (delete 0%nat (pending_calls st_authorizing))
            st_reused),
       [Send 6 [BNEP_CONTROL; BNEP_SETUP_CONN_RSP; 0; BNEP_CONN_NOT_ALLOWED];
        SetupFree 1]).
Proof.
  apply (stale_reply_ends_new_session st_authorizing 0%nat 1%nat session1
           G_IO_HUP None env_ok G_IO_IN 6 peer1 Approved env_ok).
  - apply st_authorizing_reachable.
  - reflexivity.
  - reflexivity.
  - reflexivity.
  - reflexivity.
  - reflexivity.
  - vm_compute. intros H. by apply elem_of_nil in H.
  - reflexivity.
Defined.

(** *** The listener *)

(** X14: the watch on the listening socket is only ever removed by an
    error condition on the listening socket itself; no session event,
    reply, failed accept or duplicate connection stops the listener. *)
Theorem listener_survives st ev :
  listening st = true →
  listening (step st ev).1 = false →
  ∃ cond acc block, ev = Incoming cond acc block ∧ readable cond = false.
Proof.
  intros Hl.
  destruct ev as [cond acc block|data cond dgram e|data|n reply e
                 |role id|role id enabled|role|role adapter rec|role];
    try (simpl; congruence).
  - intros Hoff. exists cond, acc, block. split; [done|].
    revert Hoff. unfold step, connect_event, readable. rewrite Hl.
    repeat case_match; simplify_eq/=; done.
  - unfold step.
    destruct (g_slist_find (setup_sessions st) data) as [s|];
      [|cbn [fst]; congruence].
    destruct (connect_setup_event (servers st) s cond dgram e)
      as [[[] s1] out]; [simpl; congruence|].
    pose proof (setup_watch_destroy_listening false
                  (set_pending (pending_calls st ++ new_calls out)
                     (set_sessions (store s1 (setup_sessions st)) st)) data)
      as Hs.
    destruct (setup_watch_destroy false _ data) as [st2 out2].
    cbn [fst] in *. simpl in Hs. congruence.
  - unfold step.
    destruct (g_slist_find (setup_sessions st) data) as [s|];
      [|cbn [fst]; congruence].
    destruct (truthy (timeout s)); [|cbn [fst]; congruence].
    unfold setup_timeout. rewrite setup_watch_destroy_listening. congruence.
  - unfold step.
    destruct (pending_calls st !! n) as [data|]; [|cbn [fst]; congruence].
    destruct (authorization_callback_servers
                (set_pending (delete n (pending_calls st)) st) data reply e)
      as [m Hm].
    destruct (authorization_callback _ data reply e) as [st1 out1].
    simpl in Hm. subst st1.
    pose proof (setup_watch_destroy_listening true
                  (set_servers m
                     (set_pending (delete n (pending_calls st)) st)) data)
      as H1.
    destruct (setup_watch_destroy true _ data) as [st2 out2].
    cbn [fst] in *. simpl in H1. congruence.
Qed.

(** *** Instances *)

Lemma role_rejection_follows_table_witness :
  let out := (connect_setup_event ∅ session0 G_IO_IN (Some req_nap_zero)
                env_ok).2 in
  (out = send_bnep_ctrl_rsp 5 BNEP_CONN_INVALID_DST
   ∨ out = send_bnep_ctrl_rsp 5 BNEP_CONN_INVALID_SRC)
  ↔ chk_role (request_dst (Some req_nap_zero))
      (request_src (Some req_nap_zero)) ≠ 0.
Proof.
  apply (role_rejection_follows_table ∅ session0 G_IO_IN (Some req_nap_zero)
           env_ok); reflexivity.
Defined.

Lemma foreign_packet_dropped_witness :
  step st_connected (SetupIO 1 G_IO_IN (Some req_foreign) env_ok)
  = (set_sessions (g_slist_remove (setup_sessions st_connected) 1)
       st_connected,
     [SetupFree 1]).
Proof.
  apply (foreign_packet_dropped st_connected 1%nat session0 G_IO_IN
           (Some req_foreign) env_ok).
  - apply st_connected_reachable.
  - reflexivity.
  - reflexivity.
  - reflexivity.
  - reflexivity.
  - right. vm_compute. discriminate.
Defined.

Lemma setup_needs_enabled_server_witness :
  step st_connected (SetupIO 1 G_IO_IN (Some req_gn_panu) env_ok)
  = (set_sessions (g_slist_remove (setup_sessions st_connected) 1)
       st_connected,
     [Send 5 [1; 2; 0; 4]; SetupFree 1]).
Proof.
  apply (setup_needs_enabled_server st_connected 1%nat session0 G_IO_IN
           (Some req_gn_panu) env_ok).
  - apply st_connected_reachable.
  - reflexivity.
  - reflexivity.
  - reflexivity.
  - reflexivity.
  - vm_compute. reflexivity.
Defined.

Lemma bus_failure_rejects_witness :
  pending_calls st_authorizing = [1%nat]
  ∧ step st_authorizing (SetupIO 1 G_IO_IN (Some req_nap_panu) env_no_bus)
    = (set_sessions (g_slist_remove (setup_sessions st_authorizing) 1)
         st_authorizing,
       [Send 5 [1; 2; 0; 4]; SetupFree 1]).
Proof.
  split; [reflexivity|].
  apply (bus_failure_rejects st_authorizing 1%nat session1
           (SetupIO 1 G_IO_IN (Some req_nap_panu) env_no_bus)).
  - apply st_authorizing_reachable.
  - reflexivity.
  - vm_compute. reflexivity.
  - reflexivity.
Defined.

Lemma late_reply_ignored_witness :
  pending_calls st_hungup = [1%nat]
  ∧ step st_hungup (AuthReply 0 Approved env_ok)
    = (set_pending [] st_hungup, []).
Proof.
  split; [vm_compute; reflexivity|].
  apply (late_reply_ignored st_hungup 0%nat 1%nat Approved env_ok).
  - vm_compute. reflexivity.
  - vm_compute. reflexivity.
Defined.

Lemma response_ends_session_witness :
  let ev := AuthReply 0 Denied env_ok in
  filter is_send (step st_authorizing ev).2 = []
  ∨ ∃ s code,
      s ∈ setup_sessions st_authorizing
      ∧ event_session st_authorizing ev = Some (ptr s)
      ∧ filter is_send (step st_authorizing ev).2
        = send_bnep_ctrl_rsp (nsk s) code
      ∧ g_slist_find (setup_sessions (step st_authorizing ev).1) (ptr s)
        = None.
Proof.
  apply (response_ends_session st_authorizing (AuthReply 0 Denied env_ok)).
  apply st_authorizing_reachable.
Defined.


Lemma other_sessions_untouched_witness :
  g_slist_find
    (setup_sessions (step st_two (SetupIO 1 G_IO_HUP None env_ok)).1) 2
  = Some session2.
Proof.
  apply (other_sessions_untouched st_two (SetupIO 1 G_IO_HUP None env_ok)
           2%nat session2).
  - simpl. discriminate.
  - vm_compute. reflexivity.
Defined.

Lemma listener_survives_witness :
  ∃ cond acc block, Incoming G_IO_HUP None 2 = Incoming cond acc block
                    ∧ readable cond = false.
Proof.
  apply (listener_survives st_connected (Incoming G_IO_HUP None 2)).
  - reflexivity.
  - reflexivity.
Defined.

(** ** Server instances in full *)

(** *** Storage *)

Section storage.
Implicit Types (fs : gmap (string * string) (gmap string string)).
Implicit Types (f : string * string) (k v : string).

Lemma textfile_get_put f k v fs :
  Admin.textfile_get f k (Admin.textfile_put f k v fs) = Some v.
Proof.
  unfold Admin.textfile_get, Admin.textfile_put.
  by rewrite lookup_insert_eq, lookup_insert_eq.
Qed.

Lemma textfile_get_put_key f k k' v fs :
  k ≠ k' →
  Admin.textfile_get f k (Admin.textfile_put f k' v fs)
  = Admin.textfile_get f k fs.
Proof.
  intros Hne. unfold Admin.textfile_get, Admin.textfile_put.
  rewrite lookup_insert_eq, lookup_insert_ne by done.
  by destruct (fs !! f).
Qed.

Lemma textfile_get_put_file f f' k k' v fs :
  f ≠ f' →
  Admin.textfile_get f k (Admin.textfile_put f' k' v fs)
  = Admin.textfile_get f k fs.
Proof.
  intros Hne. unfold Admin.textfile_get, Admin.textfile_put.
  by rewrite lookup_insert_ne.
Qed.

Lemma textfile_get_create f f' k fs :
  Admin.textfile_get f k (Admin.create_file f' fs)
  = Admin.textfile_get f k fs.
Proof.
  unfold Admin.textfile_get, Admin.create_file.
  destruct (fs !! f') eqn:Hf'; [done|].
  destruct (decide (f' = f)) as [->|Hne].
  - by rewrite lookup_insert_eq, Hf'.
  - by rewrite lookup_insert_ne.
Qed.

Lemma textfile_get_put_if_set_key f k k' o fs :
  k ≠ k' →
  Admin.textfile_get f k (Admin.put_if_set f k' o fs)
  = Admin.textfile_get f k fs.
Proof.
  intros Hne. destruct o; [|done]. by apply textfile_get_put_key.
Qed.
End storage.

(** What [server_store] leaves under the keys of the file of the
    server. *)
Lemma store_server_get ns fs k :
  Admin.textfile_get
    (Admin.create_name (Admin.src ns) (Admin.store_file (Admin.id ns))) k
    (Admin.store_server ns fs)
  = let old :=
      Admin.textfile_get
        (Admin.create_name (Admin.src ns) (Admin.store_file (Admin.id ns)))
        k fs in
    if String.eqb k "enabled"
    then Some (if Admin.enable ns then "1" else "0")%string
    else if String.eqb k "range" then from_option Some old (Admin.range ns)
    else if String.eqb k "routing" then from_option Some old (Admin.iface ns)
    else if String.eqb k "name" then from_option Some old (Admin.name ns)
    else old.
Proof.
  unfold Admin.store_server. cbv zeta.
  set (f := Admin.create_name (Admin.src ns)
              (Admin.store_file (Admin.id ns))).
  destruct (String.eqb_spec k "enabled") as [->|He];
    [by rewrite textfile_get_put|].
  rewrite textfile_get_put_key by done.
  destruct (String.eqb_spec k "range") as [->|Hr].
  { destruct (Admin.range ns); simpl; [by rewrite textfile_get_put|].
    rewrite !textfile_get_put_if_set_key by done.
    by rewrite textfile_get_create. }
  rewrite textfile_get_put_if_set_key by done.
  destruct (String.eqb_spec k "routing") as [->|Hi].
  { destruct (Admin.iface ns); simpl; [by rewrite textfile_get_put|].
    rewrite !textfile_get_put_if_set_key by done.
    by rewrite textfile_get_create. }
  rewrite textfile_get_put_if_set_key by done.
  destruct (String.eqb_spec k "name") as [->|Hn].
  { destruct (Admin.name ns); simpl; [by rewrite textfile_get_put|].
    by rewrite textfile_get_create. }
  rewrite textfile_get_put_if_set_key by done.
  by rewrite textfile_get_create.
Qed.

(** *** Enabling and disabling *)

Lemma server_record_new_role alloc security name id rec :
  Admin.server_record_new alloc security name id = Some rec →
  alloc = true
  ∧ (id = BNEP_SVC_NAP ∨ id = BNEP_SVC_GN ∨ id = BNEP_SVC_PANU)
  ∧ Admin.service_classes rec = [id]
  ∧ Admin.profile_descs rec = [(id, 0x0100)]
  ∧ Admin.info_name rec = name
  ∧ Admin.security_desc rec = (if security then 1 else 0).
Proof.
  unfold Admin.server_record_new. destruct alloc; [|done]. simpl.
  repeat match goal with
         | |- context [?a =? ?b] => destruct (Z.eqb_spec a b)
         end; intros [= <-]; subst; simpl; auto 10.
Qed.

Lemma register_server_record_handle security ns e h acts :
  Admin.register_server_record security ns e = (h, acts) →
  h ≠ 0 →
  ∃ rec,
    acts = [Admin.AddRecord (Admin.src ns) rec h]
    ∧ Admin.add_record e = Some h
    ∧ Admin.server_record_new (Admin.record_alloc e) security
        (Admin.name ns) (Admin.id ns) = Some rec.
Proof.
  unfold Admin.register_server_record.
  destruct (Admin.server_record_new _ _ _ _) as [rec|]; [|by intros [= <-]].
  destruct (Admin.add_record e) as [handle|]; [|by intros [= <-]].
  intros [= <- <-] _. eauto.
Qed.

Lemma property_file_role id :
  (id = BNEP_SVC_NAP ∨ id = BNEP_SVC_GN ∨ id = BNEP_SVC_PANU) →
  Admin.property_file id = Some (Admin.store_file id).
Proof.
  unfold Admin.property_file, Admin.store_file.
  intros [->|[->| ->]]; reflexivity.
Qed.

(** X15: [enable] on a disabled server returns a method return exactly
    when it leaves the server enabled; it then holds a record handle that
    is not zero, the class is one of the three PAN roles, exactly one
    record was added (with the class and the name of the server) before
    the signal "Enabled", and the file of the server has "enabled" at
    "1". *)
Theorem enable_outcome security ns fs e :
  Admin.enable ns = false →
  let '(ns', fs', r, acts) := Admin.enable_method security ns fs e in
  (r = Admin.Return ↔ Admin.enable ns' = true)
  ∧ (r = Admin.Return →
     Admin.record_id ns' ≠ 0
     ∧ (Admin.id ns = BNEP_SVC_NAP ∨ Admin.id ns = BNEP_SVC_GN
        ∨ Admin.id ns = BNEP_SVC_PANU)
     ∧ (∃ rec,
          acts = [Admin.AddRecord (Admin.src ns') rec (Admin.record_id ns');
                  Admin.Signal (Admin.path ns) "Enabled"]
          ∧ Admin.service_classes rec = [Admin.id ns]
          ∧ Admin.info_name rec = Admin.name ns)
     ∧ Admin.textfile_get
         (Admin.create_name (Admin.src ns')
            (Admin.store_file (Admin.id ns))) "enabled" fs'
       = Some "1"%string).
Proof.
  intros Hoff. unfold Admin.enable_method. rewrite Hoff.
  destruct (if String.eqb (Admin.src ns) Admin.BDADDR_ANY
            then match Admin.route e with
                 | Some a =>
                     Some (Admin.set_src a ns,
                           Admin.store_server (Admin.set_src a ns) fs)
                 | None => None
                 end
            else Some (ns, fs)) as [[ns1 fs1]|] eqn:Had;
    [|split; [split; [done|congruence]|done]].
  assert (Admin.enable ns1 = false ∧ Admin.id ns1 = Admin.id ns
          ∧ Admin.name ns1 = Admin.name ns
          ∧ Admin.path ns1 = Admin.path ns) as (Hoff1 & Hid & Hname & Hpath).
  { destruct (String.eqb (Admin.src ns) Admin.BDADDR_ANY);
      [destruct (Admin.route e)|]; by simplify_eq/=. }
  destruct (Admin.reply e); simpl;
    [|split; [split; [done|congruence]|done]].
  destruct (Admin.register_server_record security ns1 e) as [h acts] eqn:Hreg.
  destruct (Z.eqb_spec h 0) as [->|Hh]; simpl;
    [split; [split; [done|congruence]|done]|].
  split; [done|]. intros _.
  destruct (register_server_record_handle _ _ _ _ _ Hreg Hh)
    as (rec & -> & _ & Hrec).
  apply server_record_new_role in Hrec as (_ & Hrole & Hsv & _ & Hin & _).
  cbn [Admin.id Admin.src Admin.path Admin.record_id Admin.set_enable
         Admin.set_record_id].
  rewrite Hid in Hrole, Hsv |- *. rewrite Hname in Hin.
  split_and!; try done.
  - exists rec. by rewrite Hpath.
  - unfold Admin.store_property. rewrite (property_file_role _ Hrole).
    apply textfile_get_put.
Qed.

Lemma register_server_record_zero security ns e h acts :
  Admin.register_server_record security ns e = (h, acts) →
  h = 0 → acts = [] ∨ Admin.add_record e = Some 0.
Proof.
  unfold Admin.register_server_record.
  destruct (Admin.server_record_new _ _ _ _) as [rec|]; [|intros [= <- <-]; auto].
  destruct (Admin.add_record e) as [handle|]; [|intros [= <- <-]; auto].
  intros [= <- <-] ->. auto.
Qed.

(** X16: every method handler keeps the agreement of the enable flag
    and the record handle (enabled exactly when the handle is not zero),
    and none changes the class, the clients, the path or the address
    range of the server. *)
Theorem handlers_keep_consistency m security ns fs e :
  consistent ns →
  let ns' := (Admin.handler m security ns fs e).1.1.1 in
  consistent ns'
  ∧ Admin.id ns' = Admin.id ns
  ∧ Admin.clients ns' = Admin.clients ns
  ∧ Admin.path ns' = Admin.path ns
  ∧ Admin.range ns' = Admin.range ns.
Proof.
  unfold consistent. destruct ns as [src0 if0 n0 rg0 p0 en rid id0 cl].
  cbn [Admin.enable Admin.record_id]. intros Hc.
  destruct m; cbn [Admin.handler].
  - unfold Admin.enable_method. cbn [Admin.enable Admin.src].
    destruct en; [done|].
    destruct (String.eqb src0 Admin.BDADDR_ANY);
      [destruct (Admin.route e)|]; try done;
      (destruct (Admin.reply e); [|done]); cbn [negb];
      destruct (Admin.register_server_record _ _ _) as [h acts];
      destruct (Z.eqb_spec h 0) as [->|Hh]; simpl; split_and!; try done.
  - unfold Admin.disable. destruct (Admin.reply e); [|done].
    cbn [negb Admin.enable]. destruct en; [|done]. simpl.
    split_and!; done.
  - unfold Admin.is_enabled. by destruct (Admin.reply e).
  - unfold Admin.set_name.
    destruct (Admin.reply e); [|done]. cbn [negb].
    destruct (Admin.args e) as [new|]; [|done].
    destruct (String.length new =? 0)%nat; [done|].
    cbn [Admin.set_name_field Admin.enable Admin.record_id Admin.src
         Admin.iface Admin.range Admin.path Admin.id Admin.clients].
    destruct en; cbn [andb]; [|done].
    destruct (Z.eqb_spec rid 0) as [Hz|Hnz]; cbn [negb]; [done|].
    destruct (Admin.register_server_record _ _ _) as [h acts].
    destruct (Z.eqb_spec h 0) as [->|Hh]; simpl; split_and!; done.
  - unfold Admin.get_name. by destruct (Admin.reply e).
  - done.
  - unfold Admin.set_routing.
    destruct (Admin.reply e); [|done]. cbn [negb].
    destruct (Admin.args e) as [new|]; [|done].
    by destruct (String.length new =? 0)%nat.
Qed.

(** X17: [set_name] with a non-empty argument always puts the new name
    in the server, so that [get_name] returns it; the call answers with a
    method return or with the error Failed; on a method return the file
    of the server holds the name, on Failed (an enabled server whose
    record could not be registered again) the store and the record handle
    are as before although the name in memory has changed. *)
Theorem set_name_get_name security ns fs e new :
  Admin.reply e = true →
  Admin.args e = Some new →
  new ≠ ""%string →
  let out := Admin.set_name security ns fs e in
  let ns' := out.1.1.1 in
  let fs' := out.1.1.2 in
  let r := out.1.2 in
  Admin.name ns' = Some new
  ∧ (Admin.get_name ns' fs' e).1.2 = Admin.ReturnString new
  ∧ (r = Admin.Return ∨ r = Admin.Error Admin.Failed)
  ∧ (r = Admin.Return →
     ∀ f, Admin.property_file (Admin.id ns) = Some f →
          Admin.textfile_get (Admin.create_name (Admin.src ns) f) "name" fs'
          = Some new)
  ∧ (r = Admin.Error Admin.Failed →
     fs' = fs ∧ Admin.record_id ns' = Admin.record_id ns
     ∧ Admin.enable ns = true ∧ Admin.record_id ns ≠ 0).
Proof.
  intros Hr Ha Hne. unfold Admin.set_name, Admin.get_name.
  rewrite Hr, Ha. cbn [negb].
  assert ((String.length new =? 0)%nat = false) as ->.
  { apply Nat.eqb_neq. by destruct new. }
  assert (∀ f, Admin.property_file (Admin.id ns) = Some f →
               Admin.textfile_get (Admin.create_name (Admin.src ns) f) "name"
                 (Admin.store_property (Admin.src ns) (Admin.id ns) "name"
                    new fs) = Some new) as Hstored.
  { intros f Hf. unfold Admin.store_property. rewrite Hf.
    apply textfile_get_put. }
  cbn [Admin.set_name_field Admin.enable Admin.record_id].
  destruct (Admin.enable ns) eqn:Hen; cbn [andb];
    [|simpl; split_and!; by auto].
  destruct (Z.eqb_spec (Admin.record_id ns) 0) as [Hz|Hnz]; cbn [negb];
    [simpl; split_and!; by auto|].
  destruct (Admin.register_server_record _ _ _) as [h acts].
  destruct (Z.eqb_spec h 0) as [->|Hh]; simpl; split_and!; by auto.
Qed.

(** X18: [set_name] and [set_routing] answer a call without a string
    argument, or with the empty string, with InvalidArguments and change
    neither the server nor the store. *)
Theorem empty_argument_rejected security ns fs e :
  Admin.reply e = true →
  Admin.args e = None ∨ Admin.args e = Some ""%string →
  Admin.set_name security ns fs e
  = (ns, fs, Admin.Error Admin.InvalidArguments, [])
  ∧ Admin.set_routing ns fs e
    = (ns, fs, Admin.Error Admin.InvalidArguments, []).
Proof.
  intros Hr Ha. unfold Admin.set_name, Admin.set_routing. rewrite Hr.
  by destruct Ha as [-> | ->].
Qed.

(** X19: [server_store] followed by [server_register_from_file] on the
    file written, as at a restart: the registration succeeds and the
    server read back has the name and the enable flag that were stored,
    the routing interface when one was set, and no clients.  The address
    and the class are not in the file; they are what the caller passes.
    The address range of the server read back is whatever the file held
    under "address_range" before, since the range is written under the
    key "range". *)
Theorem store_then_register security reg p ns fs reg2 p2 src id e n :
  reg !! p = Some ns →
  Admin.name ns = Some n →
  reg2 !! p2 = None →
  Admin.object_path e = true →
  Admin.interface e = true →
  let stored := Admin.server_store reg p fs in
  let file := Admin.create_name (Admin.src ns)
                (Admin.store_file (Admin.id ns)) in
  stored.1 = 0
  ∧ ∃ ns' acts,
      Admin.server_register_from_file security reg2 (Some p2) src id file
        stored.2 e
      = (0, <[p2 := ns']> reg2, acts)
      ∧ Admin.name ns' = Some n
      ∧ Admin.enable ns' = Admin.enable ns
      ∧ (∀ i, Admin.iface ns = Some i → Admin.iface ns' = Some i)
      ∧ Admin.range ns' = Admin.textfile_get file "address_range" fs
      ∧ Admin.clients ns' = [].
Proof.
  intros Hp Hn Hfree Hop Hif. unfold Admin.server_store. rewrite Hp.
  cbn [fst snd]. split; [done|].
  unfold Admin.server_register_from_file.
  rewrite !store_server_get. cbv zeta. simpl String.eqb.
  cbv iota. rewrite Hn. simpl from_option.
  rewrite Hop, Hif, Hfree. simpl negb.
  rewrite bool_decide_eq_false_2 by (by intros []). simpl orb. cbv iota.
  destruct (Admin.enable ns) eqn:Hen.
  - simpl String.eqb. cbv iota.
    destruct (Admin.register_server_record _ _ _) as [h acts].
    eexists _, _. split; [reflexivity|]. simpl.
    split_and!; try done. intros i ->. done.
  - simpl String.eqb. cbv iota.
    eexists _, _. split; [reflexivity|]. simpl.
    split_and!; try done. intros i ->. done.
Qed.

(** X20: [server_register_from_file] on a file with "enabled" at "1"
    marks the server enabled also when the record could not be
    registered: the server is registered with the flag set and the
    handle zero. *)
Theorem register_from_file_inconsistent security reg path src id file fs e n :
  Admin.textfile_get file "name" fs = Some n →
  Admin.textfile_get file "enabled" fs = Some "1"%string →
  (Admin.register_server_record security
     (Admin.Server src (Admin.textfile_get file "routing" fs) (Some n)
        (Admin.textfile_get file "address_range" fs) path false 0 id [])
     e).1 = 0 →
  reg !! path = None →
  Admin.object_path e = true →
  Admin.interface e = true →
  ∃ ns' acts,
    Admin.server_register_from_file security reg (Some path) src id file fs e
    = (0, <[path := ns']> reg, acts)
    ∧ Admin.enable ns' = true
    ∧ Admin.record_id ns' = 0
    ∧ ¬ consistent ns'.
Proof.
  intros Hn Hen Hreg Hfree Hop Hif.
  unfold Admin.server_register_from_file. rewrite Hn, Hen. simpl String.eqb.
  cbv iota.
  destruct (Admin.register_server_record _ _ _) as [h acts].
  simpl in Hreg. subst h. simpl.
  rewrite Hop, Hif, Hfree. simpl negb.
  rewrite bool_decide_eq_false_2 by (by intros []). simpl.
  eexists _, _. split; [reflexivity|]. simpl. split_and!; try done.
  unfold consistent. simpl. intros [H _]. by apply H.
Qed.

Lemma enable_method_return security ns fs e ns1 fs1 acts :
  Admin.enable ns = false →
  Admin.enable_method security ns fs e = (ns1, fs1, Admin.Return, acts) →
  ∃ rec,
    Admin.record_id ns1 ≠ 0
    ∧ ns1 = Admin.set_enable true
              (Admin.set_record_id (Admin.record_id ns1)
                 (Admin.set_src (Admin.src ns1) ns))
    ∧ acts = [Admin.AddRecord (Admin.src ns1) rec (Admin.record_id ns1);
              Admin.Signal (Admin.path ns) "Enabled"]
    ∧ Admin.server_record_new (Admin.record_alloc e) security
        (Admin.name ns) (Admin.id ns) = Some rec.
Proof.
  intros Hoff. unfold Admin.enable_method. rewrite Hoff.
  destruct ns as [src0 if0 n0 rg0 p0 en rid id0 cl].
  cbn [Admin.src Admin.set_src Admin.iface Admin.name Admin.range
       Admin.path Admin.enable Admin.record_id Admin.id Admin.clients].
  destruct (String.eqb src0 Admin.BDADDR_ANY);
    [destruct (Admin.route e); [|done]|];
    (destruct (Admin.reply e); [|done]); cbn [negb];
    destruct (Admin.register_server_record _ _ _) as [h acts0] eqn:Hreg;
    (destruct (Z.eqb_spec h 0) as [|Hh]; [done|]);
    destruct (register_server_record_handle _ _ _ _ _ Hreg Hh)
      as (rec & -> & _ & Hrec);
    intros [= <- _ <-]; exists rec; by split_and!.
Qed.

(** X21: [disable] after a successful [enable] undoes it: it returns,
    the server is the one before the two calls up to the adapter address
    [enable] filled in (and a stale handle cleared), the first thing
    [disable] does is to remove the very record [enable] added, then it
    ends the connection of each client in order and signals "Disabled",
    and the file holds "enabled" at "0". *)
Theorem enable_then_disable security ns fs e e2 :
  Admin.enable ns = false →
  Admin.reply e2 = true →
  let on := Admin.enable_method security ns fs e in
  let ns1 := on.1.1.1 in
  let off := Admin.disable ns1 on.1.1.2 e2 in
  on.1.2 = Admin.Return →
  off.1.2 = Admin.Return
  ∧ off.1.1.1 = Admin.set_record_id 0 (Admin.set_src (Admin.src ns1) ns)
  ∧ (∃ rec h,
       h ≠ 0
       ∧ on.2 = [Admin.AddRecord (Admin.src ns1) rec h;
                 Admin.Signal (Admin.path ns) "Enabled"]
       ∧ off.2 = Admin.RemoveRecord h
                 :: map Admin.KillConnection (Admin.clients ns)
                 ++ [Admin.Signal (Admin.path ns) "Disabled"])
  ∧ Admin.textfile_get
      (Admin.create_name (Admin.src ns1) (Admin.store_file (Admin.id ns)))
      "enabled" off.1.1.2
    = Some "0"%string.
Proof.
  intros Hoff Hr2 on ns1 off Hret.
  subst off ns1. revert Hret. subst on.
  destruct (Admin.enable_method security ns fs e) as [[[ns1 fs1] r] acts]
    eqn:Hon.
  cbn [fst snd]. intros ->.
  destruct (enable_method_return _ _ _ _ _ _ _ Hoff Hon)
    as (rec & Hrec & Hns1 & -> & Hnew).
  apply server_record_new_role in Hnew as (_ & Hrole & _).
  assert (Admin.enable ns1 = true) as Hen1 by by rewrite Hns1.
  unfold Admin.disable. rewrite Hr2, Hen1. cbn [negb fst snd].
  destruct (Z.eqb_spec (Admin.record_id ns1) 0) as [Hz|_]; [done|].
  split; [done|]. split.
  { rewrite Hns1 at 1.
    generalize (Admin.src ns1), (Admin.record_id ns1). clear -Hoff.
    intros. destruct ns. cbn in *. by subst. }
  split.
  - exists rec, (Admin.record_id ns1). split; [done|]. split; [done|].
    rewrite Hns1. reflexivity.
  - unfold Admin.store_property.
    cbn [Admin.id Admin.src Admin.set_enable Admin.set_record_id].
    assert (Admin.id ns1 = Admin.id ns) as -> by by rewrite Hns1.
    rewrite (property_file_role _ Hrole). apply textfile_get_put.
Qed.

(** X22: on the fields the admission path reads, the handlers [enable]
    and [disable] act as [server_enable] and [server_disable] of the
    event loop, with the adapter found and the reply allocated for
    [adapter] and the handle of [register_server_record] for [rec]; no
    other method takes an enabled server out of service or changes its
    clients or class. *)
Theorem handlers_refine_core security ns fs e :
  core (Admin.enable_method security ns fs e).1.1.1
  = server_enable
      (bool_decide (Admin.src ns ≠ Admin.BDADDR_ANY ∨ is_Some (Admin.route e))
       && Admin.reply e)
      (Admin.register_server_record security ns e).1 (core ns)
  ∧ core (Admin.disable ns fs e).1.1.1
    = (if Admin.reply e then server_disable (core ns) else core ns)
  ∧ (∀ m, m ≠ Admin.Enable → m ≠ Admin.Disable →
          Admin.enable ns = true → Admin.record_id ns ≠ 0 →
          enable (core (Admin.handler m security ns fs e).1.1.1) = true
          ∧ clients (core (Admin.handler m security ns fs e).1.1.1)
            = clients (core ns)
          ∧ ns_id (core (Admin.handler m security ns fs e).1.1.1)
            = ns_id (core ns)).
Proof.
  destruct ns as [src0 if0 n0 rg0 p0 en rid id0 cl].
  split; [|split].
  - unfold Admin.enable_method, server_enable, core.
    cbn [Admin.enable Admin.src Admin.record_id Admin.id Admin.clients
         enable ns_id clients].
    destruct en; [done|].
    destruct (String.eqb_spec src0 Admin.BDADDR_ANY) as [->|Hne].
    + destruct (Admin.route e) as [a|] eqn:Hroute.
      * rewrite bool_decide_eq_true_2 by (right; eauto).
        destruct (Admin.reply e); [|done]. cbn [andb negb].
        unfold Admin.register_server_record.
        cbn [Admin.name Admin.id Admin.set_src Admin.src].
        destruct (Admin.server_record_new _ _ _ _); [|done].
        destruct (Admin.add_record e) as [h|]; [|done].
        cbn [fst]. by destruct (h =? 0).
      * rewrite bool_decide_eq_false_2; [done|].
        intros [?|[? ?]]; done.
    + rewrite bool_decide_eq_true_2 by (by left).
      destruct (Admin.reply e); [|done]. cbn [andb negb].
      destruct (Admin.register_server_record _ _ _) as [h acts].
      cbn [fst]. by destruct (h =? 0).
  - unfold Admin.disable, server_disable, core.
    destruct (Admin.reply e); [|done]. cbn [negb Admin.enable enable].
    by destruct en.
  - intros m Hm1 Hm2 Hen Hrid. cbn in Hen, Hrid. subst en.
    destruct m; try done; cbn [Admin.handler].
    + unfold Admin.is_enabled. by destruct (Admin.reply e).
    + unfold Admin.set_name. destruct (Admin.reply e); [|done].
      destruct (Admin.args e) as [new|]; [|done]. cbn [negb].
      destruct (String.length new =? 0)%nat; [done|].
      cbn [Admin.set_name_field Admin.enable Admin.record_id andb].
      destruct (Z.eqb_spec rid 0) as [Hz|_]; [done|]. cbn [negb].
      destruct (Admin.register_server_record _ _ _) as [h acts].
      by destruct (h =? 0).
    + unfold Admin.get_name. by destruct (Admin.reply e).
    + unfold Admin.set_routing. destruct (Admin.reply e); [|done].
      destruct (Admin.args e) as [new|]; [|done]. cbn [negb].
      by destruct (String.length new =? 0)%nat.
Qed.

(** X23: with a positive [errno] after each failed call,
    [server_init] returns 0 exactly when no system call failed; then it
    has bound the socket, set both MTUs, set the link mode only for a
    secure server, listened, installed the watch and created the GN
    bridge, in this order, and the globals hold the flag and the
    channel. *)
Theorem server_init_result g secure s :
  (∀ err, sys_failure s secure err → 0 < err) →
  let out := Admin.server_init g secure s in
  (out.1.1 = 0 ↔ ∀ err, ¬ sys_failure s secure err)
  ∧ (out.1.1 = 0 →
     ∃ sk, Admin.sys_socket s = inl sk
           ∧ out.1.2 = Admin.Globals secure (Some sk)
           ∧ out.2 = [Admin.Bind sk; Admin.GetOptions sk;
                      Admin.SetOptions sk BNEP_MTU]
                     ++ (if secure then [Admin.SetLinkMode sk] else [])
                     ++ [Admin.Listen sk; Admin.AddWatch sk;
                         Admin.BridgeCreate BNEP_SVC_GN]).
Proof.
  intros Hpos. unfold Admin.server_init.
  assert (∀ z, 0 < z → - z ≠ 0) as Hneg by lia.
  destruct (Admin.sys_socket s) as [sk|err] eqn:Hsk.
  2:{ cbn [fst snd]. split; [|intros H; exfalso; revert H; apply Hneg;
                                apply Hpos; by left].
      split; [intros H; exfalso; revert H; apply Hneg, Hpos; by left|].
      intros H. exfalso. apply (H err). by left. }
  destruct (Admin.sys_bind s) as [err|] eqn:Hbind.
  { cbn [fst snd].
    assert (sys_failure s secure err) as Hf by (right; by left).
    split; [split|]; [| |]; intros H; exfalso;
      first [by apply (H err) | revert H; by apply Hneg, Hpos]. }
  destruct (Admin.sys_getsockopt s) as [err|] eqn:Hget.
  { cbn [fst snd].
    assert (sys_failure s secure err) as Hf by (right; right; by left).
    split; [split|]; [| |]; intros H; exfalso;
      first [by apply (H err) | revert H; by apply Hneg, Hpos]. }
  destruct (Admin.sys_setsockopt s) as [err|] eqn:Hset.
  { cbn [fst snd].
    assert (sys_failure s secure err) as Hf
        by (right; right; right; by left).
    split; [split|]; [| |]; intros H; exfalso;
      first [by apply (H err) | revert H; by apply Hneg, Hpos]. }
  destruct (if secure then Admin.sys_link_mode s else None) as [err|] eqn:Hlm.
  { cbn [fst snd].
    assert (sys_failure s secure err) as Hf.
    { right; right; right; right; left. by destruct secure. }
    split; [split|]; [| |]; intros H; exfalso;
      first [by apply (H err) | revert H; by apply Hneg, Hpos]. }
  destruct (Admin.sys_listen s) as [err|] eqn:Hlisten.
  { cbn [fst snd].
    assert (sys_failure s secure err) as Hf
        by (right; right; right; right; by right).
    split; [split|]; [| |]; intros H; exfalso;
      first [by apply (H err) | revert H; by apply Hneg, Hpos]. }
  cbn [fst snd]. split.
  - split; [|done]. intros _ err [H|[H|[H|[H|[[Hs H]|H]]]]]; try congruence.
    subst secure. congruence.
  - intros _. exists sk. split; [done|]. split; [done|].
    by rewrite <- !app_assoc.
Qed.

(** X24: when [server_init] fails it installs no watch and leaves
    [bnep_io] alone, the last thing it does to a socket it created is to
    close it, and the global [security] has only changed if the failing
    call was [listen]. *)
Theorem server_init_failure g secure s :
  let out := Admin.server_init g secure s in
  out.1.1 ≠ 0 →
  Admin.bnep_io out.1.2 = Admin.bnep_io g
  ∧ (∀ sk, Admin.AddWatch sk ∉ out.2)
  ∧ (∀ sk, Admin.sys_socket s = inl sk →
           last out.2 = Some (Admin.CloseSocket sk))
  ∧ (Admin.security out.1.2 ≠ Admin.security g →
     ∃ sk, Admin.Listen sk ∈ out.2).
Proof.
  unfold Admin.server_init.
  destruct (Admin.sys_socket s) as [sk|err];
    [|cbn; intros _; split_and!;
      [done|intros; by apply not_elem_of_nil|done|done]].
  assert (∀ sk' (l : list Admin.syscall),
            Forall (λ c, c ≠ Admin.AddWatch sk') l →
            Admin.AddWatch sk' ∉ l ++ [Admin.CloseSocket sk]) as Hnw.
  { intros sk' l Hl [Hin|Hin%list_elem_of_singleton]%elem_of_app; [|done].
    by eapply Forall_forall in Hl. }
  destruct (Admin.sys_bind s);
    [cbn [fst snd]; intros _; split_and!;
       [done|intros; apply Hnw; by repeat constructor
       |intros ? [= <-]; by rewrite last_snoc|done]|].
  destruct (Admin.sys_getsockopt s);
    [cbn [fst snd]; intros _; split_and!;
       [done|intros; apply Hnw; by repeat constructor
       |intros ? [= <-]; by rewrite last_snoc|done]|].
  destruct (Admin.sys_setsockopt s);
    [cbn [fst snd]; intros _; split_and!;
       [done|intros; apply Hnw; by repeat constructor
       |intros ? [= <-]; by rewrite last_snoc|done]|].
  destruct (if secure then Admin.sys_link_mode s else None);
    [cbn [fst snd]; intros _; split_and!;
       [done|intros; apply Hnw; destruct secure; by repeat constructor
       |intros ? [= <-]; by rewrite last_snoc|done]|].
  destruct (Admin.sys_listen s); [|done].
  cbn [fst snd]; intros _; split_and!.
  - done.
  - intros. apply Hnw. destruct secure; by repeat constructor.
  - intros ? [= <-]. by rewrite last_snoc.
  - intros _. exists sk. destruct secure; set_solver.
Qed.

(** X25: [server_register] returns 0 exactly when it is given a path
    that has no object yet and both bus registrations succeed; otherwise
    the registry is unchanged; the server registered is disabled without
    record or clients, has the address, class and path given and a
    default name that is not empty. *)
Theorem server_register_result reg path src id e :
  let out := Admin.server_register reg path src id e in
  (out.1 = 0 ↔
   ∃ p, path = Some p ∧ reg !! p = None
        ∧ Admin.object_path e = true ∧ Admin.interface e = true)
  ∧ (out.1 ≠ 0 → out.2 = reg)
  ∧ (∀ p, path = Some p → out.1 = 0 →
          ∃ ns, out.2 = <[p := ns]> reg
                ∧ consistent ns
                ∧ Admin.enable ns = false
                ∧ Admin.src ns = src ∧ Admin.id ns = id
                ∧ Admin.path ns = p
                ∧ Admin.clients ns = []
                ∧ ∃ n, Admin.name ns = Some n ∧ n ≠ ""%string).
Proof.
  unfold Admin.server_register. destruct path as [p|]; cbn [fst snd].
  2:{ split_and!; [|done|done]. split; [done|]. by intros (? & ? & _). }
  destruct (Admin.object_path e); cbn [negb orb].
  2:{ split_and!; [|done|done]. split; [done|]. by intros (? & _ & _ & ? & _). }
  destruct (reg !! p) as [old|] eqn:Hp.
  { rewrite bool_decide_eq_true_2 by eauto. cbn [fst snd].
    split_and!; [|done|done]. split; [done|].
    intros (? & [= <-] & ? & _). congruence. }
  rewrite bool_decide_eq_false_2 by (by intros []).
  destruct (Admin.interface e); cbn [negb fst snd].
  2:{ split_and!; [|done|done]. split; [done|]. by intros (? & _ & _ & _ & ?). }
  split_and!; [|done|].
  - split; [|done]. intros _. by exists p.
  - intros ? [= <-] _. eexists. split; [done|]. unfold consistent.
    cbn. split_and!; try done.
    repeat match goal with
           | |- context [?a =? ?b] => destruct (Z.eqb_spec a b)
           end; by eexists.
Qed.

(** X26: a failed [server_register_from_file] leaves the registry
    unchanged and no record behind: a record it added under a handle that
    is not zero is removed again by the last thing it does. *)
Theorem register_from_file_failure security reg path src id file fs e :
  let out := Admin.server_register_from_file security reg path src id file
               fs e in
  out.1.1 ≠ 0 →
  out.1.2 = reg
  ∧ ∀ a rec h, Admin.AddRecord a rec h ∈ out.2 → h ≠ 0 →
               last out.2 = Some (Admin.RemoveRecord h).
Proof.
  unfold Admin.server_register_from_file.
  destruct path as [p|]; [|cbn; split; [done|by intros ??? ?%elem_of_nil]].
  destruct (Admin.textfile_get file "name" fs) as [n|];
    [|cbn; split; [done|by intros ??? ?%elem_of_nil]].
  cbv zeta.
  set (ns0 := Admin.Server _ _ _ _ _ _ _ _ _).
  assert (∀ ns acts,
            (ns = ns0 ∧ acts = []
             ∨ ∃ h, ns = Admin.set_enable true (Admin.set_record_id h ns0)
                    ∧ Admin.register_server_record security ns0 e
                      = (h, acts)) →
            let out :=
              (let freed :=
                 if Admin.record_id ns =? 0 then []
                 else [Admin.RemoveRecord (Admin.record_id ns)] in
               if negb (Admin.object_path e)
                  || bool_decide (is_Some (reg !! p))
               then (-1, reg, acts ++ freed)
               else if negb (Admin.interface e)
                    then (-1, reg, acts ++ freed)
                    else (0, <[p:=ns]> reg, acts)) in
            out.1.1 ≠ 0 →
            out.1.2 = reg
            ∧ ∀ a rec h, Admin.AddRecord a rec h ∈ out.2 → h ≠ 0 →
                         last out.2 = Some (Admin.RemoveRecord h)) as Hmain.
  { intros ns acts Hns.
    assert (∀ a rec h,
              Admin.AddRecord a rec h
              ∈ acts ++ (if Admin.record_id ns =? 0 then []
                         else [Admin.RemoveRecord (Admin.record_id ns)]) →
              h ≠ 0 →
              last (acts ++ (if Admin.record_id ns =? 0 then []
                             else [Admin.RemoveRecord (Admin.record_id ns)]))
              = Some (Admin.RemoveRecord h)) as Hrel.
    { destruct Hns as [[-> ->]|(h & -> & Hreg)].
      - cbn. by intros ??? ?%elem_of_nil.
      - cbn [Admin.record_id Admin.set_enable Admin.set_record_id].
        intros a rec h' Hin Hh'.
        destruct (Z.eqb_spec h 0) as [->|Hh].
        + rewrite app_nil_r in Hin.
          destruct (register_server_record_zero _ _ _ _ _ Hreg eq_refl)
            as [->|Hadd]; [by apply elem_of_nil in Hin|].
          revert Hreg Hin. unfold Admin.register_server_record.
          destruct (Admin.server_record_new _ _ _ _);
            [|by intros [= <-] ?%elem_of_nil].
          rewrite Hadd. intros [= <-].
          intros [=]%list_elem_of_singleton. congruence.
        + destruct (register_server_record_handle _ _ _ _ _ Hreg Hh)
            as (rec' & -> & _).
          apply elem_of_app in Hin as [Hin|Hin].
          * apply list_elem_of_singleton in Hin as [= _ _ ->]. done.
          * by apply list_elem_of_singleton in Hin. }
    destruct (negb (Admin.object_path e) || bool_decide (is_Some (reg !! p)));
      [done|].
    by destruct (negb (Admin.interface e)). }
  destruct (Admin.textfile_get file "enabled" fs) as [str|];
    [|apply Hmain; by left].
  destruct (String.eqb "1" str); [|apply Hmain; by left].
  destruct (Admin.register_server_record security ns0 e) as [h acts] eqn:Hreg.
  apply Hmain. right. by exists h.
Qed.

(** X27: [server_record_new] gives a record exactly when the
    allocation succeeds and the class is one of the three PAN roles; the
    record carries the class and the profile of that role at version 1.0
    and the name given, the network access attributes only for NAP, the
    protocol stack L2CAP (PSM 15) under BNEP 1.0 with IPv4 and ARP, and
    the security bit of the global flag. *)
Theorem server_record_new_shape alloc security name id :
  (is_Some (Admin.server_record_new alloc security name id)
   ↔ alloc = true
     ∧ (id = BNEP_SVC_NAP ∨ id = BNEP_SVC_GN ∨ id = BNEP_SVC_PANU))
  ∧ ∀ rec,
      Admin.server_record_new alloc security name id = Some rec →
      Admin.service_classes rec = [id]
      ∧ Admin.profile_descs rec = [(id, 0x0100)]
      ∧ Admin.info_name rec = name
      ∧ (is_Some (Admin.net_access rec) ↔ id = BNEP_SVC_NAP)
      ∧ Admin.access_protos rec
        = [[[Admin.SdpUuid16 Sdp.L2CAP_UUID; Admin.SdpUint16 Sdp.BNEP_PSM];
            [Admin.SdpUuid16 Sdp.BNEP_UUID; Admin.SdpUint16 0x0100;
             Admin.SdpSeq16 [Admin.SdpUint16 0x0800;
                             Admin.SdpUint16 0x0806]]]]
      ∧ (Admin.security_desc rec = 1 ↔ security = true).
Proof.
  split.
  - split.
    + intros [rec Hrec].
      by destruct (server_record_new_role _ _ _ _ _ Hrec) as (? & ? & _).
    + intros [-> [->|[->| ->]]]; by eexists.
  - intros rec Hrec.
    destruct (server_record_new_role _ _ _ _ _ Hrec)
      as (-> & Hrole & ? & ? & ? & Hsec).
    split_and!; try done.
    + revert Hrec. unfold Admin.server_record_new. cbn [negb].
      destruct Hrole as [->|[->| ->]]; intros [= <-]; cbn;
        (split; [intros [? ?]; done|done]) || (split; [done|by eexists]).
    + revert Hrec. unfold Admin.server_record_new. cbn [negb].
      destruct Hrole as [->|[->| ->]]; by intros [= <-].
    + rewrite Hsec. by destruct security.
Qed.

(** *** Instances of the server administration *)

Lemma enable_outcome_witness :
  let '(ns', fs', r, acts) := Admin.enable_method true admin_nap ∅ admin_env in
  (r = Admin.Return ↔ Admin.enable ns' = true)
  ∧ (r = Admin.Return →
     Admin.record_id ns' ≠ 0
     ∧ (Admin.id admin_nap = BNEP_SVC_NAP ∨ Admin.id admin_nap = BNEP_SVC_GN
        ∨ Admin.id admin_nap = BNEP_SVC_PANU)
     ∧ (∃ rec,
          acts = [Admin.AddRecord (Admin.src ns') rec (Admin.record_id ns');
                  Admin.Signal (Admin.path admin_nap) "Enabled"]
          ∧ Admin.service_classes rec = [Admin.id admin_nap]
          ∧ Admin.info_name rec = Admin.name admin_nap)
     ∧ Admin.textfile_get
         (Admin.create_name (Admin.src ns')
            (Admin.store_file (Admin.id admin_nap))) "enabled" fs'
       = Some "1"%string).
Proof.
  apply (enable_outcome true admin_nap ∅ admin_env). reflexivity.
Defined.

Lemma handlers_keep_consistency_witness :
  let ns' := (Admin.handler Admin.SetName true admin_nap_on ∅ admin_env).1.1.1 in
  consistent ns'
  ∧ Admin.id ns' = Admin.id admin_nap_on
  ∧ Admin.clients ns' = Admin.clients admin_nap_on
  ∧ Admin.path ns' = Admin.path admin_nap_on
  ∧ Admin.range ns' = Admin.range admin_nap_on.
Proof.
  apply (handlers_keep_consistency Admin.SetName true admin_nap_on ∅
           admin_env).
  split; [discriminate|reflexivity].
Defined.

Lemma set_name_get_name_witness :
  let out := Admin.set_name true admin_nap_on ∅ admin_env in
  let ns' := out.1.1.1 in
  let fs' := out.1.1.2 in
  let r := out.1.2 in
  Admin.name ns' = Some "Office"%string
  ∧ (Admin.get_name ns' fs' admin_env).1.2 = Admin.ReturnString "Office"
  ∧ (r = Admin.Return ∨ r = Admin.Error Admin.Failed)
  ∧ (r = Admin.Return →
     ∀ f, Admin.property_file (Admin.id admin_nap_on) = Some f →
          Admin.textfile_get (Admin.create_name (Admin.src admin_nap_on) f)
            "name" fs'
          = Some "Office"%string)
  ∧ (r = Admin.Error Admin.Failed →
     fs' = ∅ ∧ Admin.record_id ns' = Admin.record_id admin_nap_on
     ∧ Admin.enable admin_nap_on = true
     ∧ Admin.record_id admin_nap_on ≠ 0).
Proof.
  apply (set_name_get_name true admin_nap_on ∅ admin_env "Office").
  - reflexivity.
  - reflexivity.
  - discriminate.
Defined.

Lemma empty_argument_rejected_witness :
  Admin.set_name true admin_nap_on ∅ admin_env_no_args
  = (admin_nap_on, ∅, Admin.Error Admin.InvalidArguments, [])
  ∧ Admin.set_routing admin_nap_on ∅ admin_env_no_args
    = (admin_nap_on, ∅, Admin.Error Admin.InvalidArguments, []).
Proof.
  apply (empty_argument_rejected true admin_nap_on ∅ admin_env_no_args).
  - reflexivity.
  - left. reflexivity.
Defined.

Lemma store_then_register_witness :
  let stored := Admin.server_store (<[nap_path := admin_nap_on]> ∅) nap_path
                  ∅ in
  let file := Admin.create_name (Admin.src admin_nap_on)
                (Admin.store_file (Admin.id admin_nap_on)) in
  stored.1 = 0
  ∧ ∃ ns' acts,
      Admin.server_register_from_file true ∅ (Some nap_path) adapter0
        BNEP_SVC_NAP file stored.2 admin_env
      = (0, <[nap_path := ns']> ∅, acts)
      ∧ Admin.name ns' = Some "BlueZ NAP service"%string
      ∧ Admin.enable ns' = Admin.enable admin_nap_on
      ∧ (∀ i, Admin.iface admin_nap_on = Some i → Admin.iface ns' = Some i)
      ∧ Admin.range ns' = Admin.textfile_get file "address_range" ∅
      ∧ Admin.clients ns' = [].
Proof.
  apply (store_then_register true (<[nap_path := admin_nap_on]> ∅) nap_path
           admin_nap_on ∅ ∅ nap_path adapter0 BNEP_SVC_NAP admin_env
           "BlueZ NAP service").
  - apply lookup_insert_eq.
  - reflexivity.
  - apply lookup_empty.
  - reflexivity.
  - reflexivity.
Defined.

Lemma register_from_file_inconsistent_witness :
  ∃ ns' acts,
    Admin.server_register_from_file true ∅ (Some nap_path) adapter0
      BNEP_SVC_NAP nap_file fs_nap admin_env_no_record
    = (0, <[nap_path := ns']> ∅, acts)
    ∧ Admin.enable ns' = true
    ∧ Admin.record_id ns' = 0
    ∧ ¬ consistent ns'.
Proof.
  apply (register_from_file_inconsistent true ∅ nap_path adapter0
           BNEP_SVC_NAP nap_file fs_nap admin_env_no_record "Office").
  - unfold fs_nap. rewrite textfile_get_put_key by discriminate.
    apply textfile_get_put.
  - apply textfile_get_put.
  - reflexivity.
  - apply lookup_empty.
  - reflexivity.
  - reflexivity.
Defined.

Lemma enable_then_disable_witness :
  let on := Admin.enable_method true admin_nap ∅ admin_env in
  let ns1 := on.1.1.1 in
  let off := Admin.disable ns1 on.1.1.2 admin_env in
  off.1.2 = Admin.Return
  ∧ off.1.1.1 = Admin.set_record_id 0
                  (Admin.set_src (Admin.src ns1) admin_nap)
  ∧ (∃ rec h,
       h ≠ 0
       ∧ on.2 = [Admin.AddRecord (Admin.src ns1) rec h;
                 Admin.Signal (Admin.path admin_nap) "Enabled"]
       ∧ off.2 = Admin.RemoveRecord h
                 :: map Admin.KillConnection (Admin.clients admin_nap)
                 ++ [Admin.Signal (Admin.path admin_nap) "Disabled"])
  ∧ Admin.textfile_get
      (Admin.create_name (Admin.src ns1)
         (Admin.store_file (Admin.id admin_nap)))
      "enabled" off.1.1.2
    = Some "0"%string.
Proof.
  apply (enable_then_disable true admin_nap ∅ admin_env admin_env).
  - reflexivity.
  - reflexivity.
  - reflexivity.
Defined.

Lemma server_init_result_witness :
  let out := Admin.server_init (Admin.Globals true None) false sys_ok in
  (out.1.1 = 0 ↔ ∀ err, ¬ sys_failure sys_ok false err)
  ∧ (out.1.1 = 0 →
     ∃ sk, Admin.sys_socket sys_ok = inl sk
           ∧ out.1.2 = Admin.Globals false (Some sk)
           ∧ out.2 = [Admin.Bind sk; Admin.GetOptions sk;
                      Admin.SetOptions sk BNEP_MTU]
                     ++ (if false then [Admin.SetLinkMode sk] else [])
                     ++ [Admin.Listen sk; Admin.AddWatch sk;
                         Admin.BridgeCreate BNEP_SVC_GN]).
Proof.
  apply (server_init_result (Admin.Globals true None) false sys_ok).
  intros err [H|[H|[H|[H|[[H _]|H]]]]]; discriminate.
Defined.

Lemma server_init_failure_witness :
  let out := Admin.server_init (Admin.Globals true None) false
               sys_listen_fails in
  Admin.bnep_io out.1.2 = Admin.bnep_io (Admin.Globals true None)
  ∧ (∀ sk, Admin.AddWatch sk ∉ out.2)
  ∧ (∀ sk, Admin.sys_socket sys_listen_fails = inl sk →
           last out.2 = Some (Admin.CloseSocket sk))
  ∧ (Admin.security out.1.2 ≠ Admin.security (Admin.Globals true None) →
     ∃ sk, Admin.Listen sk ∈ out.2).
Proof.
  apply (server_init_failure (Admin.Globals true None) false
           sys_listen_fails).
  vm_compute. discriminate.
Defined.

Lemma register_from_file_failure_witness :
  let out := Admin.server_register_from_file true ∅ (Some nap_path) adapter0
               BNEP_SVC_NAP nap_file fs_nap admin_env_no_interface in
  out.1.2 = ∅
  ∧ ∀ a rec h, Admin.AddRecord a rec h ∈ out.2 → h ≠ 0 →
               last out.2 = Some (Admin.RemoveRecord h).
Proof.
  apply (register_from_file_failure true ∅ (Some nap_path) adapter0
           BNEP_SVC_NAP nap_file fs_nap admin_env_no_interface).
  vm_compute. discriminate.
Defined.
